(** * Election-results extractor: a shallow embedding of [extract_to_json.py]

    The script reads a PDF page by page.  The PDF engine is an external
    collaborator: a page is what it hands over, an optional text and a
    list of tables of nullable text cells.  Everything after that point
    (header detection by regular expression, row parsing with its
    [try]/[except], the page loop with its "current constituency"
    accumulator) is translated below, function by function.

    Text is ASCII, as in the document the script is written for; a
    character is a Stdlib [ascii] and a string a [list ascii].  Integers
    are unbounded ([Z]); [int()] refuses a digit string longer than the
    interpreter's limit, taken at its default of 4300 digits.  *)

From Stdlib Require Import ZArith List Ascii String Bool Lia Arith.
Import ListNotations.

Set Implicit Arguments.

(* ------------------------------------------------------------------ *)
(** ** Python string primitives *)

Module PyStr.

Definition str := list ascii.

(** A literal, written as a Rocq string. *)
Definition lit (s : string) : str := list_ascii_of_string s.

Definition code (c : ascii) : nat := nat_of_ascii c.

Definition in_range (lo hi : nat) (c : ascii) : bool :=
  (lo <=? code c) && (code c <=? hi).

(** [str.isspace] on one character, also the class [\s] of [re]:
    TAB, LF, VT, FF, CR, the separators FS GS RS US, and the blank. *)
Definition is_space (c : ascii) : bool :=
  in_range 9 13 c || in_range 28 31 c || (code c =? 32).

(** The C-level test used by [int()] and [float()] when they skip the
    blanks around a number: it does not know the four separators. *)
Definition is_cspace (c : ascii) : bool :=
  in_range 9 13 c || (code c =? 32).

(** A decimal digit: [str.isdigit] on one character, the class [\d]. *)
Definition is_digit (c : ascii) : bool := in_range 48 57 c.

Definition digit_val (c : ascii) : Z := Z.of_nat (code c - 48).

Fixpoint drop_while (p : ascii -> bool) (s : str) : str :=
  match s with
  | [] => []
  | c :: t => if p c then drop_while p t else s
  end.

Definition lstrip_by (p : ascii -> bool) (s : str) : str := drop_while p s.
Definition rstrip_by (p : ascii -> bool) (s : str) : str :=
  rev (drop_while p (rev s)).
Definition strip_by (p : ascii -> bool) (s : str) : str :=
  rstrip_by p (lstrip_by p s).

(** [s.strip()] *)
Definition strip (s : str) : str := strip_by is_space s.

(** [s.isdigit()]: at least one character and all of them digits. *)
Definition isdigit (s : str) : bool :=
  match s with
  | [] => false
  | _ => forallb is_digit s
  end.

Definition upper_char (c : ascii) : ascii :=
  if in_range 97 122 c then ascii_of_nat (code c - 32) else c.

(** [s.upper()] *)
Definition upper (s : str) : str := map upper_char s.

(** [s.replace(old, new)] for a one-character [old]. *)
Definition replace (old : ascii) (new : str) (s : str) : str :=
  flat_map (fun c => if Ascii.eqb c old then new else [c]) s.

Definition str_eqb (a b : str) : bool :=
  if list_eq_dec ascii_dec a b then true else false.

(** [x in [l1; ...; ln]] on strings. *)
Definition str_in (x : str) (l : list str) : bool := existsb (str_eqb x) l.

(** The value of a run of digits read in base ten, most significant
    first. *)
Definition dec_value (s : str) : Z :=
  fold_left (fun acc c => 10 * acc + digit_val c)%Z s 0%Z.

(** Underscores in a numeric literal must stand between two digits. *)
Fixpoint underscores_ok (prev : option ascii) (s : str) : bool :=
  match s with
  | [] => match prev with
          | Some p => negb (Ascii.eqb p "_")
          | None => true
          end
  | c :: t =>
      (if Ascii.eqb c "_"
       then match prev with Some p => is_digit p | None => false end
       else match prev with
            | Some p => negb (Ascii.eqb p "_") || is_digit c
            | None => true
            end)
      && underscores_ok (Some c) t
  end.

Definition no_underscore (s : str) : str :=
  filter (fun c => negb (Ascii.eqb c "_")) s.

(** An optional sign in front of a number. *)
Definition take_sign (s : str) : bool * str :=
  match s with
  | c :: t =>
      if Ascii.eqb c "-" then (true, t)
      else if Ascii.eqb c "+" then (false, t)
      else (false, s)
  | [] => (false, s)
  end.

(** The interpreter's limit on the number of digits of a decimal string
    given to [int()]: [sys.get_int_max_str_digits()], 4300 unless the
    interpreter is configured otherwise. *)
Definition int_max_str_digits : nat := 4300.

(** [int(s)] on a string, base ten.  [None] stands for [ValueError].
    Blanks around the number are skipped with the C-level test; then an
    optional sign; then digits, with single underscores between them,
    no more of them than the limit allows (leading zeros count,
    underscores do not). *)
Definition py_int (s : str) : option Z :=
  let (neg, body) := take_sign (lstrip_by is_cspace s) in
  let body := rstrip_by is_cspace body in
  if underscores_ok None body && isdigit (no_underscore body)
  then if int_max_str_digits <? List.length (no_underscore body)
       then None
       else let v := dec_value (no_underscore body) in
            Some (if neg then (- v)%Z else v)
  else None.

(** What [float(s)] denotes before rounding to a binary64: a NaN, an
    infinity, or the decimal [(-1)^neg * mantissa * 10^exponent].  The
    rounding itself is not modelled. *)
Inductive pyfloat : Type :=
| FNan
| FInf (neg : bool)
| FDec (neg : bool) (mantissa : Z) (exponent : Z).

Definition lower_char (c : ascii) : ascii :=
  if in_range 65 90 c then ascii_of_nat (code c + 32) else c.

Fixpoint span (p : ascii -> bool) (s : str) : str * str :=
  match s with
  | [] => ([], [])
  | c :: t =>
      if p c then let (a, b) := span p t in (c :: a, b) else ([], s)
  end.

(** The exponent part after the mantissa: nothing, or [e]/[E], an
    optional sign and at least one digit.  [None] when malformed. *)
Definition float_exponent (s : str) : option Z :=
  match s with
  | [] => Some 0%Z
  | c :: t =>
      if Ascii.eqb (lower_char c) "e"
      then let (neg, ds) := take_sign t in
           if isdigit ds
           then Some (if neg then (- dec_value ds)%Z else dec_value ds)
           else None
      else None
  end.

(** [float(s)] on a string.  [None] stands for [ValueError]. *)
Definition py_float (s : str) : option pyfloat :=
  let s := strip_by is_cspace s in
  if negb (underscores_ok None s) then None else
  let (neg, body) := take_sign (no_underscore s) in
  let low := map lower_char body in
  if str_in low [lit "inf"; lit "infinity"] then Some (FInf neg)
  else if str_eqb low (lit "nan") then Some FNan
  else
    let (ip, r1) := span is_digit body in
    let (fp, r2) := match r1 with
                    | c :: t => if Ascii.eqb c "." then span is_digit t
                                else ([], r1)
                    | [] => ([], r1)
                    end in
    match ip ++ fp with
    | [] => None
    | ds => match float_exponent r2 with
            | Some e => Some (FDec neg (dec_value ds)
                                 (e - Z.of_nat (List.length fp)))
            | None => None
            end
    end.

End PyStr.

Import PyStr.


(* ------------------------------------------------------------------ *)
(** ** The fragment of [re] used by the header pattern

    The pattern is a sequence of literals and of quantified character
    classes, some of them capturing.  [re.search] is a backtracking
    matcher: a greedy class first takes as much as it can and gives
    characters back one at a time, a lazy one first takes as little as
    it may and grows; the first start offset with a match wins. *)

Module Regex.

Inductive atom : Type :=
| Lit (l : str)
    (** the characters of [l], as they are *)
| Rep (cls : ascii -> bool) (lo : nat) (greedy : bool) (capture : bool).
    (** [lo] or more characters of the class: [c*], [c+], [c+?];
        [capture] puts parentheses around it *)

Definition pattern := list atom.

Fixpoint strip_prefix (l s : str) : option str :=
  match l, s with
  | [], _ => Some s
  | a :: l', b :: s' => if Ascii.eqb a b then strip_prefix l' s' else None
  | _ :: _, [] => None
  end.

Definition or_else {A} (x : option A) (y : option A) : option A :=
  match x with Some _ => x | None => y end.

(** One quantified class in front of the continuation [k], which gets
    the text taken so far (reversed) and the text left. *)
Fixpoint rep {R} (cls : ascii -> bool) (greedy : bool)
    (k : str -> str -> option R) (lo : nat) (acc : str) (s : str)
    : option R :=
  match lo with
  | S lo' =>
      match s with
      | c :: s' => if cls c then rep cls greedy k lo' (c :: acc) s' else None
      | [] => None
      end
  | O =>
      match s with
      | c :: s' =>
          if cls c
          then if greedy
               then or_else (rep cls greedy k O (c :: acc) s') (k acc s)
               else or_else (k acc s) (rep cls greedy k O (c :: acc) s')
          else k acc s
      | [] => k acc []
      end
  end.

(** The captured groups, in the order of their parentheses. *)
Definition groups := list str.

Definition match_atom (a : atom) (k : str -> option groups) (s : str)
    : option groups :=
  match a with
  | Lit l => match strip_prefix l s with
             | Some s' => k s'
             | None => None
             end
  | Rep cls lo greedy capture =>
      rep cls greedy
        (fun taken s' =>
           if capture then option_map (cons (rev taken)) (k s') else k s')
        lo [] s
  end.

(** [re.match]: the pattern anchored at the start of [s]. *)
Fixpoint match_here (p : pattern) : str -> option groups :=
  match p with
  | [] => fun _ => Some []
  | a :: p' => match_atom a (match_here p')
  end.

(** [re.search]: the first offset where the pattern matches. *)
Fixpoint search (p : pattern) (s : str) : option groups :=
  match match_here p s with
  | Some g => Some g
  | None => match s with
            | [] => None
            | _ :: s' => search p s'
            end
  end.

End Regex.

Import Regex.

(* ------------------------------------------------------------------ *)
(** ** Header detector: [extract_constituency_info] *)

Record header : Type := mk_header {
  h_number : Z;
  h_name : str;
  h_electors : Z
}.

(** [.] matches everything but a line feed. *)
Definition any_char (c : ascii) : bool := negb (code c =? 10).

Definition ws : atom := Rep is_space 0 true false.

(** [Constituency:\s*(\d+)\s*\.\s*(.+?)\s*\(\s*Total Electors\s*(\d+)\s*\)] *)
Definition header_pattern : pattern :=
  [ Lit (lit "Constituency:"); ws; Rep is_digit 1 true true; ws;
    Lit (lit "."); ws; Rep any_char 1 false true; ws;
    Lit (lit "("); ws; Lit (lit "Total Electors"); ws;
    Rep is_digit 1 true true; ws; Lit (lit ")") ].

(** The detector as the page loop of a completed run sees it: the
    header found, or [None].  [int()] refuses a [\d+] group only for
    its length, and the source lets that exception end the run: the
    function with its exception is [extract_constituency_info_raising]
    below, and whenever that one returns, this one returns the same
    (lemma [detector_returns]). *)
Definition extract_constituency_info (text : str) : option header :=
  match search header_pattern text with
  | Some [g1; g2; g3] =>
      match py_int g1, py_int g3 with
      | Some n, Some e => Some (mk_header n (strip g2) e)
      | _, _ => None
      end
  | _ => None
  end.


(* ------------------------------------------------------------------ *)
(** ** Exceptions inside the row parser *)

Inductive exn : Type := ValueError | IndexError.

Inductive res (A : Type) : Type :=
| Ok (a : A)
| Raise (e : exn).
Arguments Raise {A} e.

Definition bind {A B} (m : res A) (f : A -> res B) : res B :=
  match m with
  | Ok a => f a
  | Raise e => Raise e
  end.

Declare Scope res_scope.
Delimit Scope res_scope with res.
Notation "x <- m ;; f" := (bind m (fun x => f))
  (at level 61, m at next level, right associativity) : res_scope.

(* ------------------------------------------------------------------ *)
(** ** Row parser: [parse_table_row] *)

(** A table cell: a text or [None]. *)
Definition cell := option str.
Definition row := list cell.

Record votes_secured_t : Type := mk_votes {
  general : Z;
  postal : Z;
  total : Z
}.

Record percentage_t : Type := mk_pct {
  over_total_electors : option pyfloat;
  over_total_votes_polled : option pyfloat;
  over_total_valid_votes : option pyfloat
}.

Record candidate : Type := mk_candidate {
  serial_number : option Z;
  candidate_name : str;
  gender : str;
  age : option Z;
  category : str;
  party : str;
  symbol : str;
  total_votes_polled : option Z;
  valid_votes : option Z;
  votes_secured : votes_secured_t;
  percentage_of_votes : percentage_t
}.

(** The truth value of a cell: [None] and the empty text are false. *)
Definition truthy (c : cell) : bool :=
  match c with
  | Some (_ :: _) => true
  | _ => false
  end.

(** [str(x)] *)
Definition str_of (c : cell) : str :=
  match c with
  | Some s => s
  | None => lit "None"
  end.

(** [row[i]], raising [IndexError] past the end. *)
Definition get (r : row) (i : nat) : res cell :=
  match nth_error r i with
  | Some c => Ok c
  | None => Raise IndexError
  end.

(** [int(c)] and [float(c)] on a cell that holds a text. *)
Definition int_of (c : cell) : res Z :=
  match py_int (str_of c) with
  | Some z => Ok z
  | None => Raise ValueError
  end.

Definition float_of (c : cell) : res pyfloat :=
  match py_float (str_of c) with
  | Some f => Ok f
  | None => Raise ValueError
  end.

Definition comma : ascii := ",".
Definition newline : ascii := "010".

(** [str(c).strip().isdigit()] *)
Definition plain_digits (c : cell) : bool := isdigit (strip (str_of c)).

(** [str(c).strip().replace(",", "").isdigit()] *)
Definition comma_digits (c : cell) : bool :=
  isdigit (replace comma [] (strip (str_of c))).

(** [str(c).strip().replace(",", "").replace("%", "").replace("-", "").strip()]
    as a truth value *)
Definition pct_text (c : cell) : str :=
  strip (replace "-" [] (replace "%" [] (replace comma [] (strip (str_of c))))).

Definition nonempty (s : str) : bool :=
  match s with [] => false | _ => true end.

(** [int(row[i]) if row[i] and guard(row[i]) else dflt] *)
Definition int_field (guard : cell -> bool) (dflt : option Z) (r : row)
    (i : nat) : res (option Z) :=
  (c <- get r i ;;
   if truthy c && guard c
   then (z <- int_of c ;; Ok (Some z))
   else Ok dflt)%res.

(** The same with the default [0] of the vote counts. *)
Definition votes_field (r : row) (i : nat) : res Z :=
  (c <- get r i ;;
   if truthy c && comma_digits c then int_of c else Ok 0%Z)%res.

(** [str(row[i]).strip() if row[i] else ""] *)
Definition text_field (r : row) (i : nat) : res str :=
  (c <- get r i ;; Ok (if truthy c then strip (str_of c) else []))%res.

(** [str(row[i]).strip().replace("\n", " ") if row[i] else ""] *)
Definition text_field_nl (r : row) (i : nat) : res str :=
  (c <- get r i ;;
   Ok (if truthy c then replace newline (lit " ") (strip (str_of c))
       else []))%res.

(** [float(row[i]) if row[i] and <stripped text> else None] *)
Definition pct_field (r : row) (i : nat) : res (option pyfloat) :=
  (c <- get r i ;;
   if truthy c && nonempty (pct_text c)
   then (f <- float_of c ;; Ok (Some f))
   else Ok None)%res.

(** The same behind [len(row) > 14 and ...]. *)
Definition pct_field_opt (r : row) (i : nat) : res (option pyfloat) :=
  if i <? List.length r then pct_field r i else Ok None.

(** The dictionary display inside [try], its entries evaluated in
    order. *)
Definition candidate_of_row (r : row) : res candidate :=
  (sn <- int_field plain_digits None r 0 ;;
   name <- text_field_nl r 1 ;;
   gen <- text_field r 2 ;;
   ag <- int_field plain_digits None r 3 ;;
   cat <- text_field r 4 ;;
   par <- text_field r 5 ;;
   sym <- text_field_nl r 6 ;;
   tvp <- int_field comma_digits None r 7 ;;
   vv <- int_field comma_digits None r 8 ;;
   vg <- votes_field r 9 ;;
   vp <- votes_field r 10 ;;
   vt <- votes_field r 11 ;;
   p1 <- pct_field r 12 ;;
   p2 <- pct_field r 13 ;;
   p3 <- pct_field_opt r 14 ;;
   Ok (mk_candidate sn name gen ag cat par sym tvp vv
         (mk_votes vg vp vt) (mk_pct p1 p2 p3)))%res.

(** [not l] on a list. *)
Definition is_empty {A} (l : list A) : bool :=
  match l with [] => true | _ => false end.

(** The labels of header and footer rows. *)
Definition skip_labels : list str :=
  [lit "SL"; lit "SL NO"; lit "TOTAL"; []].

(** [row[0] is None or str(row[0]).strip().upper() in [...]] *)
Definition skip_row (r : row) : bool :=
  match nth_error r 0 with
  | Some (Some s) => str_in (upper (strip s)) skip_labels
  | _ => true
  end.

(** [None] is the function's [return None]: the two early returns and
    the [except (ValueError, IndexError)] clause. *)
Definition parse_table_row (r : row) : option candidate :=
  if is_empty r || (List.length r <? 10) then None
  else if skip_row r then None
  else match candidate_of_row r with
       | Ok c => Some c
       | Raise _ => None
       end.

(* ------------------------------------------------------------------ *)
(** ** The page loop: [extract_pdf_to_json] *)

Record constituency : Type := mk_constituency {
  constituency_number : Z;
  constituency_name : str;
  total_electors : Z;
  candidates : list candidate
}.

Definition table := list row.

(** What the PDF engine gives for a page: [page.extract_text()] and
    [page.extract_tables()]. *)
Record page : Type := mk_page {
  extract_text : option str;
  extract_tables : list table
}.

Record results : Type := mk_results {
  election : str;
  state : str;
  constituencies : list constituency
}.

Definition serial_eqb (a b : option Z) : bool :=
  match a, b with
  | Some x, Some y => Z.eqb x y
  | None, None => true
  | _, _ => false
  end.

(** [next((c for c in candidates if c["serial_number"] == n), None)] *)
Definition existing (cands : list candidate) (n : option Z)
    : option candidate :=
  find (fun c => serial_eqb (serial_number c) n) cands.

(** [current_constituency["candidates"].append(candidate)] *)
Definition append_candidate (cur : constituency) (cand : candidate)
    : constituency :=
  mk_constituency (constituency_number cur) (constituency_name cur)
    (total_electors cur) (candidates cur ++ [cand]).

(** The body of [for row in table[2:]]. *)
Definition add_row (cur : constituency) (r : row) : constituency :=
  match parse_table_row r with
  | Some cand =>
      match serial_number cand with
      | Some _ =>
          match existing (candidates cur) (serial_number cand) with
          | None => append_candidate cur cand
          | Some _ => cur
          end
      | None => cur
      end
  | None => cur
  end.

(** The body of [for table in tables]. *)
Definition add_table (cur : constituency) (t : table) : constituency :=
  if is_empty t || (List.length t <? 2) then cur
  else fold_left add_row (skipn 2 t) cur.

(** The loop state: [results["constituencies"]] and
    [current_constituency]. *)
Definition loop_state : Type := list constituency * option constituency.

Definition new_constituency (info : header) : constituency :=
  mk_constituency (h_number info) (h_name info) (h_electors info) [].

(** The header part of the loop body. *)
Definition on_header (st : loop_state) (text : str) : loop_state :=
  match extract_constituency_info text with
  | Some info =>
      (match snd st with
       | Some cur => fst st ++ [cur]
       | None => fst st
       end,
       Some (new_constituency info))
  | None => st
  end.

(** The table part of the loop body. *)
Definition on_tables (st : loop_state) (tables : list table) : loop_state :=
  match snd st with
  | Some cur =>
      if is_empty tables then st
      else (fst st, Some (fold_left add_table tables cur))
  | None => st
  end.

(** One turn of [for page_num, page in enumerate(pdf.pages)]. *)
Definition page_step (st : loop_state) (p : page) : loop_state :=
  match extract_text p with
  | None | Some [] => st
  | Some text => on_tables (on_header st text) (extract_tables p)
  end.

(** "Add last constituency". *)
Definition flush (st : loop_state) : list constituency :=
  match snd st with
  | Some cur => fst st ++ [cur]
  | None => fst st
  end.

Definition extract_pdf_to_json (pages : list page) : results :=
  mk_results (lit "2024 Lok Sabha Elections") (lit "Andhra Pradesh")
    (flush (fold_left page_step pages ([], None))).

(* ------------------------------------------------------------------ *)
(** ** Specification-level definitions

    These are not translations of code: they say, in the words of the
    design, what the code above is compared with. *)

(** The header sentence, as the design writes it:
    [Constituency: <digits> . <name text> ( Total Electors <digits> )],
    the blanks between the tokens being any run of white space, the
    name any non-empty run of characters without a line feed.  [s]
    starts with such a sentence whose parts are [d1], [name], [d2]. *)
Definition all_of (p : ascii -> bool) (s : str) : Prop := forallb p s = true.

Definition header_shape (s d1 name d2 : str) : Prop :=
  exists w1 w2 w3 w4 w5 w6 w7 rest : str,
    s = lit "Constituency:" ++ w1 ++ d1 ++ w2 ++ lit "." ++ w3 ++ name
          ++ w4 ++ lit "(" ++ w5 ++ lit "Total Electors" ++ w6 ++ d2
          ++ w7 ++ lit ")" ++ rest
    /\ all_of is_space w1 /\ all_of is_space w2 /\ all_of is_space w3
    /\ all_of is_space w4 /\ all_of is_space w5 /\ all_of is_space w6
    /\ all_of is_space w7
    /\ all_of is_digit d1 /\ d1 <> []
    /\ all_of any_char name /\ name <> []
    /\ all_of is_digit d2 /\ d2 <> [].

(** A header sentence starts at offset [n] of [text]. *)
Definition header_at (text : str) (n : nat) : Prop :=
  exists d1 name d2, header_shape (skipn n text) d1 name d2.

(** What a pattern denotes: [matches p s g] when a prefix of [s] is in
    the language of [p], the captured parts being [g]. *)
Inductive matches : pattern -> str -> groups -> Prop :=
| matches_nil s : matches [] s []
| matches_lit l p s g :
    matches p s g -> matches (Lit l :: p) (l ++ s) g
| matches_rep cls lo greedy p taken s g :
    all_of cls taken -> lo <= List.length taken ->
    matches p s g ->
    matches (Rep cls lo greedy false :: p) (taken ++ s) g
| matches_cap cls lo greedy p taken s g :
    all_of cls taken -> lo <= List.length taken ->
    matches p s g ->
    matches (Rep cls lo greedy true :: p) (taken ++ s) (taken :: g).

(** The pages the loop does not skip, and the header of a page. *)
Definition readable (p : page) : bool :=
  match extract_text p with
  | Some (_ :: _) => true
  | _ => false
  end.

Definition page_header (p : page) : option header :=
  match extract_text p with
  | Some text => if readable p then extract_constituency_info text else None
  | None => None
  end.

(** The header matches of a document, page by page. *)
Definition headers (pages : list page) : list header :=
  flat_map (fun p => match page_header p with
                     | Some h => [h]
                     | None => []
                     end) pages.

(** The rows of a table that reach the row parser, and those of a
    readable page. *)
Definition table_rows (t : table) : list row :=
  if is_empty t || (List.length t <? 2) then [] else skipn 2 t.

Definition page_rows (p : page) : list row :=
  if readable p then flat_map table_rows (extract_tables p) else [].

(** The current record as a list of zero or one record. *)
Definition flushed (cur : option constituency) : list constituency :=
  match cur with
  | Some c => [c]
  | None => []
  end.

(** A document cut at its header pages: the rows before the first
    header, then each header with the rows up to the next one. *)
Fixpoint segments (pages : list page) : list row * list (header * list row) :=
  match pages with
  | [] => ([], [])
  | p :: ps =>
      let (pre, segs) := segments ps in
      match page_header p with
      | Some h => ([], (h, page_rows p ++ pre) :: segs)
      | None => (page_rows p ++ pre, segs)
      end
  end.

(** The record of one segment. *)
Definition build (seg : header * list row) : constituency :=
  fold_left add_row (snd seg) (new_constituency (fst seg)).

Definition header_of (c : constituency) : header :=
  mk_header (constituency_number c) (constituency_name c) (total_electors c).

(** The rows the loop admits or compares: parsed, with a serial
    number. *)
Definition admissible (r : row) : option candidate :=
  match parse_table_row r with
  | Some c => match serial_number c with
              | Some _ => Some c
              | None => None
              end
  | None => None
  end.

(** Two rows that differ at most in the cells of the free-text
    columns 1, 2, 4, 5 and 6. *)
Definition text_column (i : nat) : bool :=
  (i =? 1) || (i =? 2) || (i =? 4) || (i =? 5) || (i =? 6).

Definition same_off_text (r r' : row) : Prop :=
  List.length r = List.length r' /\
  forall i, text_column i = false -> nth_error r i = nth_error r' i.

(** Where the dictionary display raises: a cell that passed its guard
    and that [int()] or [float()] refuses. *)
Definition is_none {A} (o : option A) : bool :=
  match o with None => true | Some _ => false end.

Definition int_refused (guard : cell -> bool) (c : cell) : bool :=
  truthy c && guard c && is_none (py_int (str_of c)).

Definition float_refused (c : cell) : bool :=
  truthy c && nonempty (pct_text c) && is_none (py_float (str_of c)).

Definition at_cell (r : row) (i : nat) (bad : cell -> bool) : bool :=
  match nth_error r i with
  | Some c => bad c
  | None => false
  end.

(** What a field needs from its cell: the cell must be there, and the
    conversion must not refuse it. *)
Definition need (r : row) (i : nat) (bad : cell -> bool) : bool :=
  match nth_error r i with
  | Some c => bad c
  | None => true
  end.

Definition coercion_error (r : row) : bool :=
  at_cell r 0 (int_refused plain_digits)
  || at_cell r 3 (int_refused plain_digits)
  || at_cell r 7 (int_refused comma_digits)
  || at_cell r 8 (int_refused comma_digits)
  || at_cell r 9 (int_refused comma_digits)
  || at_cell r 10 (int_refused comma_digits)
  || at_cell r 11 (int_refused comma_digits)
  || at_cell r 12 float_refused
  || at_cell r 13 float_refused
  || at_cell r 14 float_refused.

(** A cell access past the end: cells 0 to 13 are read without a test
    of the length. *)
Definition access_error (r : row) : bool := List.length r <? 14.

Definition is_raise {A} (m : res A) : bool :=
  match m with Raise _ => true | Ok _ => false end.

(** [r] with cell [i] replaced. *)
Definition with_cell (i : nat) (c : cell) (r : row) : row :=
  firstn i r ++ c :: skipn (S i) r.

(** The percentage columns and the entry each one fills. *)
Definition pct_column (i : nat) : bool := (i =? 12) || (i =? 13) || (i =? 14).

Definition pct_at (i : nat) (c : candidate) : option pyfloat :=
  match i with
  | 12 => over_total_electors (percentage_of_votes c)
  | 13 => over_total_votes_polled (percentage_of_votes c)
  | _ => over_total_valid_votes (percentage_of_votes c)
  end.

(** The test in front of [float()]. *)
Definition pct_guard (c : cell) : bool := truthy c && nonempty (pct_text c).

(** A cell without any of the characters the test takes out. *)
Definition plain_cell (c : cell) : Prop :=
  forall x, In x [comma; "%"; "-"]%char -> ~ In x (str_of c).

(* ------------------------------------------------------------------ *)
(** ** Sample rows and documents *)

Module Samples.
Open Scope string_scope.

Definition cells (l : list string) : row := map (fun s => Some (lit s)) l.

Definition label_row : row :=
  cells ["SL NO"; "Candidate"; "Sex"; "Age"; "Category"; "Party";
         "Symbol"; "Polled"; "Valid"; "General"; "Postal"; "Total";
         "% Electors"; "% Polled"; "% Valid"].

Definition data_row : row :=
  cells ["1"; "A. Kumar"; "M"; "45"; "GEN"; "XYZ"; "Lotus"; "12345";
         "12300"; "10000"; "300"; "10300"; "0.66"; "83.7"; "83.9"].

Definition data_candidate : candidate :=
  mk_candidate (Some 1%Z) (lit "A. Kumar") (lit "M") (Some 45%Z)
    (lit "GEN") (lit "XYZ") (lit "Lotus") (Some 12345%Z) (Some 12300%Z)
    (mk_votes 10000 300 10300)
    (mk_pct (Some (FDec false 66 (-2))) (Some (FDec false 837 (-1)))
            (Some (FDec false 839 (-1)))).

(** A thousands separator in the vote-count column 7. *)
Definition comma_row : row := with_cell 7 (Some (lit "12,345")) data_row.

(** Percentage column 12 holding a dash, a word, a percent sign. *)
Definition dash_row : row := with_cell 12 (Some (lit "-")) data_row.
Definition word_row : row := with_cell 12 (Some (lit "abc")) data_row.
Definition percent_row : row := with_cell 12 (Some (lit "0.66%")) data_row.

(** The party cell left empty by the table extraction. *)
Definition with_party_absent : row := with_cell 5 None data_row.

(** Serial number zero. *)
Definition zero_row : row := with_cell 0 (Some (lit "0")) data_row.

Definition text1 : str := lit "Constituency: 1 . Araku ( Total Electors 1557153)".
Definition text2 : str := lit "Constituency: 2 . Srikakulam ( Total Electors 1000000)".

Definition header1 : header := mk_header 1 (lit "Araku") 1557153.
Definition header2 : header := mk_header 2 (lit "Srikakulam") 1000000.

(** Two pages; the table of page 1 has one row of labels and one data
    row. *)
Definition scenario : list page :=
  [mk_page (Some text1) [[label_row; data_row]]; mk_page (Some text2) []].

(** The same with two rows of labels above the data row. *)
Definition scenario2 : list page :=
  [mk_page (Some text1) [[label_row; label_row; data_row]];
   mk_page (Some text2) []].

(** A constituency whose table runs over two pages, the header sentence
    printed on both. *)
Definition repeated_header : list page :=
  [mk_page (Some text1) [[label_row; label_row; data_row]];
   mk_page (Some text1) [[label_row; label_row; zero_row]]].

(** A header with number zero. *)
Definition text0 : str := lit "Constituency: 0 . Nowhere ( Total Electors 10)".

End Samples.
(* ------------------------------------------------------------------ *)
(** ** The console summary of [extract_pdf_to_json] *)

(** [len(results['constituencies'])] *)
Definition count_constituencies (res : results) : nat :=
  List.length (constituencies res).

(** [sum(len(c['candidates']) for c in results['constituencies'])] *)
Definition total_candidates (res : results) : nat :=
  list_sum (map (fun c => List.length (candidates c)) (constituencies res)).

(* ------------------------------------------------------------------ *)
(** ** The inspector: [extract_pdf.py]

    The script prints; a run is modelled by the list of its [print]
    calls, each with the values it is given. *)

Module Inspector.

Inductive line : Type :=
| PageMarker (n : nat)
    (** [print(f"\n=== Page {i+1} ===")] *)
| TextDump (s : str)
    (** [print(text[:2000])] *)
| FoundTables (count : nat) (n : nat)
    (** [print(f"\nFound {len(tables)} table(s) on page {i+1}")] *)
| TableMarker (j : nat)
    (** [print(f"\n--- Table {j+1} ---")] *)
| Headers (r : row)
    (** [print("Headers:", table[0])] *)
| RowLine (r : row)
    (** [print(row)] *)
| Message (s : str).
    (** [print("...")] of a fixed text *)

(** [enumerate(l)], counting from [i]. *)
Fixpoint enumerate {A} (i : nat) (l : list A) : list (nat * A) :=
  match l with
  | [] => []
  | x :: t => (i, x) :: enumerate (S i) t
  end.

(** The body of [for j, table in enumerate(tables[:2])]. *)
Definition table_preview (jt : nat * table) : list line :=
  TableMarker (fst jt + 1)
  :: (if negb (is_empty (snd jt)) && (0 <? List.length (snd jt))
      then (if 0 <? List.length (snd jt)
            then match nth_error (snd jt) 0 with
                 | Some h => [Headers h]
                 | None => []
                 end
            else [])
           ++ map RowLine (firstn 5 (skipn 1 (snd jt)))
      else []).

(** [print(text[:2000])] under [if text]. *)
Definition text_preview (text : option str) : list line :=
  if truthy text then [TextDump (firstn 2000 (str_of text))] else [].

(** The body of [for i, page in enumerate(pdf.pages[:5])]. *)
Definition page_preview (ip : nat * page) : list line :=
  PageMarker (fst ip + 1)
  :: text_preview (extract_text (snd ip))
  ++ (if is_empty (extract_tables (snd ip)) then []
      else FoundTables (List.length (extract_tables (snd ip))) (fst ip + 1)
           :: flat_map table_preview
                (enumerate 0 (firstn 2 (extract_tables (snd ip))))).

Definition extract_with_pdfplumber (pages : list page) : list line :=
  flat_map page_preview (enumerate 0 (firstn 5 pages)).

(** With PyPDF2 a page only gives its text. *)
Definition extract_with_pypdf2 (pages : list (option str)) : list line :=
  flat_map (fun ip => PageMarker (fst ip + 1) :: text_preview (snd ip))
    (enumerate 0 (firstn 5 pages)).

(** The two imports at the top of the module: which of them succeed. *)
Record imports : Type := mk_imports {
  pdfplumber_found : bool;
  pypdf2_found : bool
}.

(** The module's two flags after the imports.  [HAS_PYPDF2] is only
    assigned in the [except] branch of the first import: [None] is the
    name left unbound. *)
Record flags : Type := mk_flags {
  HAS_PDFPLUMBER : bool;
  HAS_PYPDF2 : option bool
}.

Definition module_flags (env : imports) : flags :=
  if pdfplumber_found env then mk_flags true None
  else mk_flags false (Some (pypdf2_found env)).

(** The [__main__] block.  [None] stands for the [NameError] of reading
    an unbound flag.  The two libraries are two engines: each has its
    own view of the document. *)
Definition main (fl : flags) (plumber_pages : list page)
    (pypdf2_pages : list (option str)) : option (list line) :=
  if HAS_PDFPLUMBER fl
  then Some (Message (lit "Using pdfplumber...")
             :: extract_with_pdfplumber plumber_pages)
  else match HAS_PYPDF2 fl with
       | None => None
       | Some true => Some (Message (lit "Using PyPDF2...")
                            :: extract_with_pypdf2 pypdf2_pages)
       | Some false =>
           Some [Message (lit "No PDF library available. Please install pdfplumber or PyPDF2");
                 Message (lit "Try: pip install pdfplumber --break-system-packages")]
       end.

Definition is_page_marker (l : line) : bool :=
  match l with PageMarker _ => true | _ => false end.

End Inspector.

(* ------------------------------------------------------------------ *)
(** ** Further specification-level definitions *)

(** A text with no white space at either end. *)
Definition ends_clean (p : ascii -> bool) (s : str) : Prop :=
  match s with [] => True | c :: _ => p c = false end
  /\ match rev s with [] => True | c :: _ => p c = false end.

(** The candidates of the rows that parse with a serial number, in row
    order. *)
Definition admitted_stream (rows : list row) : list candidate :=
  flat_map (fun r => match admissible r with
                     | Some c => [c]
                     | None => []
                     end) rows.

(** Of a list of candidates, the first one for each serial number not
    in [seen]. *)
Fixpoint keep_first (seen : list (option Z)) (l : list candidate)
    : list candidate :=
  match l with
  | [] => []
  | c :: t =>
      if existsb (serial_eqb (serial_number c)) seen
      then keep_first seen t
      else c :: keep_first (seen ++ [serial_number c]) t
  end.

(** The value an integer entry takes from its cell, given the test in
    front of [int()]. *)
Definition int_entry (guard : cell -> bool) (c : cell) : option Z :=
  if truthy c && guard c then Some (dec_value (strip (str_of c))) else None.

(** The same with the default [0] of the vote counts. *)
Definition or_zero (o : option Z) : Z :=
  match o with Some z => z | None => 0%Z end.

(* ------------------------------------------------------------------ *)
(** ** The header detector and the page loop with their exception

    [extract_constituency_info] has no [try] around its two [int()]
    calls: what [int()] raises leaves the function, the page loop and
    [extract_pdf_to_json].  The definitions above give the results of
    the runs that complete; the ones below keep the exception. *)

(** [match.group(i)] for [i >= 1]: [IndexError] when the pattern has no
    such group. *)
Definition group (g : groups) (i : nat) : res str :=
  match nth_error g (i - 1) with
  | Some x => Ok x
  | None => Raise IndexError
  end.

(** [int(s)] on a text. *)
Definition int_of_text (s : str) : res Z :=
  match py_int s with
  | Some z => Ok z
  | None => Raise ValueError
  end.

(** [extract_constituency_info], exception included. *)
Definition extract_constituency_info_raising (text : str)
    : res (option header) :=
  match search header_pattern text with
  | Some g =>
      (g1 <- group g 1 ;;
       n <- int_of_text g1 ;;
       g2 <- group g 2 ;;
       g3 <- group g 3 ;;
       e <- int_of_text g3 ;;
       Ok (Some (mk_header n (strip g2) e)))%res
  | None => Ok None
  end.

(** The header part of the loop body, once the detector has returned. *)
Definition on_header_info (st : loop_state) (info : option header)
    : loop_state :=
  match info with
  | Some info =>
      (match snd st with
       | Some cur => fst st ++ [cur]
       | None => fst st
       end,
       Some (new_constituency info))
  | None => st
  end.

(** One turn of the page loop, exception included. *)
Definition page_step_raising (st : loop_state) (p : page) : res loop_state :=
  match extract_text p with
  | None | Some [] => Ok st
  | Some text =>
      (info <- extract_constituency_info_raising text ;;
       Ok (on_tables (on_header_info st info) (extract_tables p)))%res
  end.

Fixpoint run_pages (pages : list page) (st : loop_state) : res loop_state :=
  match pages with
  | [] => Ok st
  | p :: ps => (st' <- page_step_raising st p ;; run_pages ps st')%res
  end.

(** [extract_pdf_to_json], exception included. *)
Definition extract_pdf_to_json_raising (pages : list page) : res results :=
  (st <- run_pages pages ([], None) ;;
   Ok (mk_results (lit "2024 Lok Sabha Elections") (lit "Andhra Pradesh")
         (flush st)))%res.

(** The header sentence with the white space after the dot shown:
    [s] starts with a header sentence whose parts are [d1], [w3],
    [name], [d2]. *)
Definition header_parts (s w3 d1 name d2 : str) : Prop :=
  exists w1 w2 w4 w5 w6 w7 rest : str,
    s = lit "Constituency:" ++ w1 ++ d1 ++ w2 ++ lit "." ++ w3 ++ name
          ++ w4 ++ lit "(" ++ w5 ++ lit "Total Electors" ++ w6 ++ d2
          ++ w7 ++ lit ")" ++ rest
    /\ all_of is_space w1 /\ all_of is_space w2 /\ all_of is_space w3
    /\ all_of is_space w4 /\ all_of is_space w5 /\ all_of is_space w6
    /\ all_of is_space w7
    /\ all_of is_digit d1 /\ d1 <> []
    /\ all_of any_char name /\ name <> []
    /\ all_of is_digit d2 /\ d2 <> [].

(** The match a backtracking matcher settles on: at the first offset
    where a header sentence starts, the sentence that gives the white
    space after the dot as many characters as any sentence starting
    there does and, among these, the name as few. *)
Definition chosen (text : str) (n : nat) (w3 d1 name d2 : str) : Prop :=
  header_parts (skipn n text) w3 d1 name d2
  /\ (forall m, m < n -> ~ header_at text m)
  /\ (forall w3' d1' name' d2',
        header_parts (skipn n text) w3' d1' name' d2' ->
        List.length w3' <= List.length w3
        /\ (List.length w3' = List.length w3 ->
            List.length name <= List.length name')).


(** A quantified class takes [t'] before it takes [t]: more characters
    first when greedy, fewer first when lazy. *)
Definition preferred (greedy : bool) (t' t : str) : Prop :=
  if greedy then List.length t < List.length t'
  else List.length t' < List.length t.

(** What a backtracking matcher returns: a match in which no quantified
    class could have taken a preferred run and still let the rest of
    the pattern match. *)
Inductive best : pattern -> str -> groups -> Prop :=
| best_nil s : best [] s []
| best_lit l p s g :
    best p s g -> best (Lit l :: p) (l ++ s) g
| best_rep cls lo greedy capture p taken s g :
    all_of cls taken -> lo <= List.length taken ->
    best p s g ->
    (forall taken' s',
        taken' ++ s' = taken ++ s -> all_of cls taken' ->
        lo <= List.length taken' -> preferred greedy taken' taken ->
        forall g', ~ matches p s' g') ->
    best (Rep cls lo greedy capture :: p) (taken ++ s)
         (if capture then taken :: g else g).

(** A text that does not start with a character of the class. *)
Definition stops (p : ascii -> bool) (x : str) : Prop :=
  match x with
  | [] => True
  | c :: _ => p c = false
  end.

(** The header pattern after the name:
    [\s*\(\s*Total Electors\s*(\d+)\s*\)] *)
Definition header_tail : pattern :=
  [ws; Lit (lit "("); ws; Lit (lit "Total Electors"); ws;
   Rep is_digit 1 true true; ws; Lit (lit ")")].

Module HeaderSamples.


End HeaderSamples.

Module MoreSamples.
Import Samples.

(** A page that continues the table of the page before it, without a
    header sentence. *)
Definition continuation : page :=
  mk_page (Some (lit "continued")) [[label_row; label_row; zero_row]].

(** A scanned page: tables and no text. *)
Definition scan_page : page :=
  mk_page None [[label_row; label_row; data_row]].

Definition page1 : page :=
  mk_page (Some text1) [[label_row; label_row; data_row]].

Definition page2 : page :=
  mk_page (Some text2) [[label_row; label_row; zero_row; data_row]].

End MoreSamples.

Section PyStrTests.
Open Scope string_scope.
Example int_probe :
  map (fun s => py_int (lit s))
    [String "028" "5"; String "009" (String "5" (String "010" ""));
     " 5 "; "+5"; "-5"; "1_0"; "007"; ""; "12,345"; "0"; "1__0"; "_1";
     "1_"; "+ 5"; "5 5"; "1.0"]
  = [None; Some 5; Some 5; Some 5; Some (-5); Some 10; Some 7; None;
     None; Some 0; None; None; None; None; None; None]%Z.
Proof. vm_compute. reflexivity. Qed.
Example float_probe :
  map (fun s => py_float (lit s))
    ["-"; "12.5%"; "1,234.5"; "-5.0"; "abc"; "inf"; "nan"; "1e5"; ".5";
     "5."; "1_0.5"; "Infinity"; "iNf"; "1e"; "e5"; "."; "+.5e-3";
     " 1.5 "; "--5"; "1 5"; "0x10"; "1e+"; "1E5"; "infinit"; "nan ";
     "1__0"; "_1"; "1_"; "1._5"; "1_e5"; "1e_5"; "1e5_0"; "+"; "in_f";
     ""; "83.7"; String "028" "1.5"]
  = [None; None; None; Some (FDec true 50 (-1)); None;
     Some (FInf false); Some FNan; Some (FDec false 1 5);
     Some (FDec false 5 (-1)); Some (FDec false 5 0);
     Some (FDec false 105 (-1)); Some (FInf false); Some (FInf false);
     None; None; None; Some (FDec false 5 (-4));
     Some (FDec false 15 (-1)); None; None; None; None;
     Some (FDec false 1 5); None; Some FNan;
     None; None; None; None; None; None; Some (FDec false 1 50); None;
     None; None; Some (FDec false 837 (-1)); None]%Z.
Proof. vm_compute. reflexivity. Qed.

Example strip_probe :
  map (fun s => strip (lit s))
    [" ab  "; String "028" (String "5" (String "031" "")); "a b"; "  "]
  = map lit ["ab"; "5"; "a b"; ""].
Proof. vm_compute. reflexivity. Qed.
End PyStrTests.

Section HeaderTests.
Open Scope string_scope.
Example header_probe :
  map (fun s => extract_constituency_info (lit s))
    ["Constituency: 12 . Vijayawada ( Total Electors 1500000)";
     "x Constituency:1.A B(Total Electors5) Constituency: 2 . C ( Total Electors 6 )";
     "Constituency: 1 . Foo (SC) ( Total Electors 7)";
     "Constituency: 1 .   ( Total Electors 7)";
     "Constituency: 1 . A ( Total  Electors 7)";
     "constituency: 1 . A ( Total Electors 7)";
     ""]
  = [Some (mk_header 12 (lit "Vijayawada") 1500000);
     Some (mk_header 1 (lit "A B") 5);
     Some (mk_header 1 (lit "Foo (SC)") 7);
     Some (mk_header 1 (lit "") 7);
     None; None; None]%Z.
Proof. vm_compute. reflexivity. Qed.
End HeaderTests.

Section SampleTests.
Import Samples.
Example row_probe :
  map parse_table_row [data_row; label_row; comma_row; dash_row; word_row;
                       percent_row; firstn 13 data_row; firstn 14 data_row]
  = [Some data_candidate; None; None;
     Some (mk_candidate (Some 1%Z) (lit "A. Kumar") (lit "M") (Some 45%Z)
       (lit "GEN") (lit "XYZ") (lit "Lotus") (Some 12345%Z) (Some 12300%Z)
       (mk_votes 10000 300 10300)
       (mk_pct None (Some (FDec false 837 (-1))) (Some (FDec false 839 (-1)))));
     None; None; None;
     Some (mk_candidate (Some 1%Z) (lit "A. Kumar") (lit "M") (Some 45%Z)
       (lit "GEN") (lit "XYZ") (lit "Lotus") (Some 12345%Z) (Some 12300%Z)
       (mk_votes 10000 300 10300)
       (mk_pct (Some (FDec false 66 (-2))) (Some (FDec false 837 (-1))) None))].
Proof. vm_compute. reflexivity. Qed.

Example scenario_probe :
  map (fun c => (constituency_number c, List.length (candidates c)))
      (constituencies (extract_pdf_to_json scenario))
  = [(1%Z, 0); (2%Z, 0)].
Proof. vm_compute. reflexivity. Qed.
End SampleTests.

(* ------------------------------------------------------------------ *)
(** * Properties *)

(** ** Strings and numbers *)

Section StringFacts.

Ltac chars :=
  unfold is_space, is_cspace, is_digit, any_char, in_range in *;
  repeat match goal with
         | H : context [?a <=? ?b] |- _ => destruct (Nat.leb_spec a b)
         | H : context [?a =? ?b] |- _ => destruct (Nat.eqb_spec a b)
         | |- context [?a <=? ?b] => destruct (Nat.leb_spec a b)
         | |- context [?a =? ?b] => destruct (Nat.eqb_spec a b)
         end;
  simpl in *; try congruence; try lia.

Lemma digit_not_cspace c : is_digit c = true -> is_cspace c = false.
Proof. intros H. chars. Qed.

Lemma digit_not_space c : is_digit c = true -> is_space c = false.
Proof. intros H. chars. Qed.

Lemma cspace_is_space c : is_cspace c = true -> is_space c = true.
Proof. intros H. chars. Qed.

Lemma digit_not_char c (d : ascii) :
  is_digit d = false -> is_digit c = true -> Ascii.eqb c d = false.
Proof.
  intros Hd Hc. destruct (Ascii.eqb_spec c d) as [->|]; congruence.
Qed.

Lemma space_not_char c (d : ascii) :
  is_space d = false -> is_space c = true -> Ascii.eqb c d = false.
Proof.
  intros Hd Hc. destruct (Ascii.eqb_spec c d) as [->|]; congruence.
Qed.

Lemma drop_while_split p s :
  exists a, s = a ++ drop_while p s /\ forallb p a = true.
Proof.
  induction s as [|c s [a [E F]]]; simpl.
  - exists []. auto.
  - destruct (p c) eqn:P.
    + exists (c :: a). simpl. rewrite P, F. split; [congruence | reflexivity].
    + exists []. auto.
Qed.

Lemma drop_while_head p c s : p c = false -> drop_while p (c :: s) = c :: s.
Proof. intros H. simpl. now rewrite H. Qed.


Lemma drop_while_app_stop p a c s :
  forallb p a = true -> p c = false ->
  drop_while p (a ++ c :: s) = c :: s.
Proof.
  induction a as [|x a IH]; simpl; intros Ha Hc.
  - now rewrite Hc.
  - apply andb_true_iff in Ha as [-> Ha]. auto.
Qed.

Lemma forallb_rev' (p : ascii -> bool) s : forallb p (rev s) = forallb p s.
Proof.
  induction s as [|c s IH]; simpl; auto.
  rewrite forallb_app, IH. simpl. rewrite andb_true_r. apply andb_comm.
Qed.

Lemma rstrip_split p s :
  exists b, s = rstrip_by p s ++ b /\ forallb p b = true.
Proof.
  unfold rstrip_by. destruct (drop_while_split p (rev s)) as [a [E F]].
  exists (rev a). split.
  - rewrite <- (rev_involutive s), E at 1. now rewrite rev_app_distr.
  - now rewrite forallb_rev'.
Qed.

(** [strip] takes characters of the class off both ends and nothing
    else. *)
Lemma strip_split p s :
  exists a b, s = a ++ strip_by p s ++ b
              /\ forallb p a = true /\ forallb p b = true.
Proof.
  unfold strip_by, lstrip_by.
  destruct (drop_while_split p s) as [a [E F]].
  destruct (rstrip_split p (drop_while p s)) as [b [E' F']].
  exists a, b. repeat split; auto. now rewrite <- E'.
Qed.

Lemma rstrip_last p s c :
  p c = false -> rstrip_by p (s ++ [c]) = s ++ [c].
Proof.
  intros H. unfold rstrip_by. rewrite rev_app_distr. simpl.
  rewrite H. simpl. now rewrite rev_involutive.
Qed.

Lemma rstrip_nil p : rstrip_by p [] = [].
Proof. reflexivity. Qed.

Lemma dec_value_snoc s c :
  dec_value (s ++ [c]) = (10 * dec_value s + digit_val c)%Z.
Proof. unfold dec_value. now rewrite fold_left_app. Qed.

Lemma dec_value_nonneg s : (0 <= dec_value s)%Z.
Proof.
  induction s as [|c s IH] using rev_ind.
  - reflexivity.
  - rewrite dec_value_snoc. unfold digit_val. lia.
Qed.

Lemma isdigit_all s : isdigit s = true <-> forallb is_digit s = true /\ s <> [].
Proof.
  destruct s; simpl; split; easy.
Qed.

Lemma underscores_ok_digits prev s :
  forallb is_digit s = true ->
  match prev with Some p => is_digit p = true | None => True end ->
  underscores_ok prev s = true.
Proof.
  revert prev. induction s as [|c s IH]; simpl; intros prev Hs Hp.
  - destruct prev as [p|]; auto.
    rewrite (@digit_not_char _ "_"%char); auto.
  - apply andb_true_iff in Hs as [Hc Hs].
    rewrite (@digit_not_char _ "_"%char); auto.
    rewrite IH; auto. destruct prev; auto. now rewrite Hc, orb_true_r.
Qed.

Lemma no_underscore_digits s :
  forallb is_digit s = true -> no_underscore s = s.
Proof.
  induction s as [|c s IH]; simpl; auto.
  intros H. apply andb_true_iff in H as [Hc Hs].
  rewrite (@digit_not_char _ "_"%char); auto. simpl. now rewrite IH.
Qed.

Lemma rstrip_digits s :
  forallb is_digit s = true -> rstrip_by is_cspace s = s.
Proof.
  destruct s as [|c s] using rev_ind; auto.
  rewrite forallb_app. simpl. intros H.
  apply andb_true_iff in H as [_ H]. apply andb_true_iff in H as [H _].
  apply rstrip_last. now apply digit_not_cspace.
Qed.

(** [int()] reads a run of digits as its base-ten value, and refuses it
    only for its length. *)
Lemma py_int_digits s :
  isdigit s = true ->
  py_int s = if int_max_str_digits <? List.length s then None
             else Some (dec_value s).
Proof.
  intros H. apply isdigit_all in H as [H N].
  destruct s as [|c s]; [congruence|].
  assert (Hc : is_digit c = true) by (simpl in H; now apply andb_true_iff in H).
  unfold py_int, lstrip_by.
  rewrite drop_while_head by now apply digit_not_cspace.
  unfold take_sign.
  rewrite (@digit_not_char _ "-"%char), (@digit_not_char _ "+"%char); auto.
  rewrite rstrip_digits, underscores_ok_digits, no_underscore_digits; auto.
  assert (D : isdigit (c :: s) = true)
    by (apply isdigit_all; split; [auto | discriminate]).
  rewrite D. reflexivity.
Qed.

Lemma drop_while_incl p s c : In c (drop_while p s) -> In c s.
Proof.
  destruct (drop_while_split p s) as [a [E _]]. intros H.
  rewrite E. apply in_or_app. now right.
Qed.

(** A negative [int()] needs a minus sign. *)
Lemma py_int_nonneg s v :
  py_int s = Some v -> ~ In "-"%char s -> (0 <= v)%Z.
Proof.
  unfold py_int, take_sign, lstrip_by. intros H N.
  destruct (drop_while is_cspace s) as [|c t] eqn:E.
  - destruct (_ && _); [|discriminate].
    destruct (_ <? _); inversion H. apply dec_value_nonneg.
  - destruct (Ascii.eqb_spec c "-") as [->|_].
    + exfalso. apply N, (drop_while_incl is_cspace). rewrite E. now left.
    + destruct (Ascii.eqb c "+"); (destruct (_ && _); [|discriminate]);
        destruct (_ <? _); inversion H; apply dec_value_nonneg.
Qed.

Lemma replace_incl old s c : In c s -> c <> old -> In c (replace old [] s).
Proof.
  unfold replace. intros H N. apply in_flat_map. exists c. split; auto.
  destruct (Ascii.eqb_spec c old); [congruence | now left].
Qed.

(** A text that is all digits once trimmed, commas taken out or not,
    holds no minus sign. *)
Lemma digits_no_minus (commas : bool) s :
  isdigit (if commas then replace comma [] (strip s) else strip s) = true ->
  ~ In "-"%char s.
Proof.
  intros H M. apply isdigit_all in H as [H _].
  destruct (strip_split is_space s) as [a [b [E [Fa Fb]]]].
  fold (strip s) in E. rewrite E in M.
  rewrite forallb_forall in H, Fa, Fb.
  apply in_app_or in M as [M|M]; [apply Fa in M; discriminate|].
  apply in_app_or in M as [M|M]; [|apply Fb in M; discriminate].
  destruct commas.
  - apply replace_incl with (old := comma) in M; [|discriminate].
    apply H in M. discriminate.
  - apply H in M. discriminate.
Qed.

End StringFacts.

(** ** The backtracking matcher against the language of the pattern *)

Section RegexFacts.

Lemma strip_prefix_sound l s s' : strip_prefix l s = Some s' -> s = l ++ s'.
Proof.
  revert s. induction l as [|a l IH]; intros [|b s]; simpl; try congruence.
  destruct (Ascii.eqb_spec a b) as [->|]; [|discriminate].
  intros H. f_equal. auto.
Qed.

Lemma strip_prefix_app l s : strip_prefix l (l ++ s) = Some s.
Proof.
  induction l as [|a l IH]; simpl; [now destruct s|].
  now rewrite Ascii.eqb_refl.
Qed.

Lemma or_else_some A (x y : option A) r :
  or_else x y = Some r -> x = Some r \/ y = Some r.
Proof. destruct x; simpl; auto. Qed.

Lemma or_else_defined A (x y : option A) :
  x <> None \/ y <> None -> or_else x y <> None.
Proof. destruct x; simpl; [discriminate | tauto]. Qed.

Variable R : Type.
Variable cls : ascii -> bool.
Variable greedy : bool.
Variable k : str -> str -> option R.

(** Whatever [rep] returns, its continuation returned it, after at
    least [lo] characters of the class. *)
Lemma rep_sound s : forall lo acc r,
  rep cls greedy k lo acc s = Some r ->
  exists taken rest,
    s = taken ++ rest /\ all_of cls taken /\ lo <= List.length taken
    /\ k (rev taken ++ acc) rest = Some r.
Proof.
  induction s as [|c s IH]; intros lo acc r H.
  - destruct lo; simpl in H; [|discriminate].
    exists [], []. repeat split; auto.
  - destruct lo as [|lo]; simpl in H; destruct (cls c) eqn:C;
      try discriminate.
    + assert (H' : rep cls greedy k 0 (c :: acc) s = Some r
                   \/ k acc (c :: s) = Some r)
        by (destruct greedy; apply or_else_some in H; tauto).
      destruct H' as [H'|H'].
      * apply IH in H' as (t & rest & -> & A & L & K).
        exists (c :: t), rest. unfold all_of. simpl. rewrite C.
        repeat split; auto; try lia. now rewrite <- app_assoc.
      * exists [], (c :: s). repeat split; auto.
    + exists [], (c :: s). repeat split; auto.
    + apply IH in H as (t & rest & -> & A & L & K).
      exists (c :: t), rest. unfold all_of. simpl. rewrite C.
      repeat split; auto; try lia. now rewrite <- app_assoc.
Qed.

(** If the continuation accepts some split, [rep] finds a split that it
    accepts. *)
Lemma rep_complete taken : forall lo acc rest,
  all_of cls taken -> lo <= List.length taken ->
  k (rev taken ++ acc) rest <> None ->
  rep cls greedy k lo acc (taken ++ rest) <> None.
Proof.
  unfold all_of.
  induction taken as [|c t IH]; intros lo acc rest A L K; simpl in *.
  - assert (lo = 0) by lia. subst lo.
    destruct rest as [|c s]; simpl; auto.
    destruct (cls c); auto.
    destruct greedy; apply or_else_defined; auto.
  - apply andb_true_iff in A as [C A].
    rewrite <- app_assoc in K. simpl in K.
    destruct lo as [|lo]; simpl; rewrite C.
    + destruct greedy; apply or_else_defined; [left|right];
        apply IH; auto; lia.
    + apply IH; auto; lia.
Qed.

End RegexFacts.

Lemma option_map_some A B (f : A -> B) o b :
  option_map f o = Some b -> exists a, o = Some a /\ b = f a.
Proof. destruct o; simpl; [|discriminate]. intros [= <-]. eauto. Qed.

(** The matcher only returns what the pattern denotes. *)
Lemma match_here_sound p : forall s g,
  match_here p s = Some g -> matches p s g.
Proof.
  induction p as [|a p IH]; intros s g H; simpl in H.
  - injection H as <-. constructor.
  - destruct a as [l|cls lo greedy capture]; simpl in H.
    + destruct (strip_prefix l s) as [s'|] eqn:E; [|discriminate].
      apply strip_prefix_sound in E as ->. constructor. auto.
    + apply rep_sound in H as (t & rest & -> & A & L & K).
      destruct capture.
      * apply option_map_some in K as (g' & K & ->).
        rewrite app_nil_r, rev_involutive. constructor; auto.
      * constructor; auto.
Qed.

(** The matcher finds a match whenever the pattern has one. *)
Lemma match_here_complete p s g :
  matches p s g -> match_here p s <> None.
Proof.
  induction 1; simpl.
  - discriminate.
  - now rewrite strip_prefix_app.
  - apply rep_complete; auto.
  - apply rep_complete; auto.
    destruct (match_here p s); [discriminate | contradiction].
Qed.

(** [search] returns a match at the first offset that has one. *)
Lemma search_sound p s : forall g,
  search p s = Some g ->
  exists n, matches p (skipn n s) g
            /\ forall m g', m < n -> ~ matches p (skipn m s) g'.
Proof.
  induction s as [|c s IH]; intros g H; simpl in H.
  - destruct (match_here p []) eqn:E; [|discriminate].
    injection H as ->. exists 0. split; [now apply match_here_sound | lia].
  - destruct (match_here p (c :: s)) eqn:E.
    + injection H as ->. exists 0. split; [now apply match_here_sound | lia].
    + apply IH in H as (n & M & F). exists (S n). split; auto.
      intros [|m] g' L M'.
      * apply match_here_complete in M'. simpl in M'. congruence.
      * apply (F m g'); [lia | exact M'].
Qed.

Lemma search_complete p s n g :
  matches p (skipn n s) g -> search p s <> None.
Proof.
  revert n. induction s as [|c s IH]; intros n M; simpl.
  - rewrite skipn_nil in M. apply match_here_complete in M.
    destruct (match_here p []); [discriminate | contradiction].
  - destruct (match_here p (c :: s)) eqn:E; [discriminate|].
    destruct n as [|n].
    + apply match_here_complete in M. simpl in M. congruence.
    + destruct s; eapply IH; exact M.
Qed.

(** ** The header detector *)

Section HeaderFacts.

Lemma nonempty_length (s : str) : s <> [] <-> 1 <= List.length s.
Proof. destruct s; simpl; split; try easy; lia. Qed.

Ltac peel :=
  repeat match goal with
         | H : matches (_ :: _) _ _ |- _ => inversion H; subst; clear H
         | H : matches [] _ _ |- _ => inversion H; subst; clear H
         end.

(** The pattern denotes the header sentence of the design. *)
Lemma header_pattern_shape s g :
  matches header_pattern s g <->
  exists d1 name d2, g = [d1; name; d2] /\ header_shape s d1 name d2.
Proof.
  unfold header_pattern, ws. split.
  - intros H. peel.
    match goal with
    | |- exists d1 name d2, [?a; ?b; ?c] = _ /\ _ => exists a, b, c
    end.
    split; [reflexivity|]. unfold header_shape.
    repeat eexists; try reflexivity; try assumption;
      now apply nonempty_length.
  - intros (d1 & name & d2 & -> & H).
    destruct H as (w1 & w2 & w3 & w4 & w5 & w6 & w7 & rest & -> & H).
    decompose [and] H. clear H.
    repeat first [ apply matches_lit | apply matches_rep
                 | apply matches_cap | apply matches_nil ];
      try assumption; try lia; now apply nonempty_length.
Qed.

Lemma shape_digits s d1 name d2 :
  header_shape s d1 name d2 -> isdigit d1 = true /\ isdigit d2 = true.
Proof.
  intros (w1 & w2 & w3 & w4 & w5 & w6 & w7 & rest & _ & H).
  decompose [and] H. split; apply isdigit_all; auto.
Qed.

(** A header found is a header sentence of the text, at the first
    offset where one starts; its numbers are the digits read in base
    ten and its name is trimmed. *)
Lemma extract_some text h :
  extract_constituency_info text = Some h ->
  exists n d1 name d2,
    header_shape (skipn n text) d1 name d2
    /\ h = mk_header (dec_value d1) (strip name) (dec_value d2)
    /\ forall m, m < n -> ~ header_at text m.
Proof.
  unfold extract_constituency_info.
  destruct (search header_pattern text) as [g|] eqn:S; [|discriminate].
  apply search_sound in S as (n & M & F).
  apply header_pattern_shape in M as (d1 & name & d2 & -> & Sh).
  destruct (shape_digits Sh) as [D1 D2].
  rewrite (py_int_digits _ D1), (py_int_digits _ D2).
  destruct (_ <? _); [discriminate|]. destruct (_ <? _); [discriminate|].
  intros [= <-]. exists n, d1, name, d2. repeat split; auto.
  intros m L (a & b & c & Sh'). apply (F m [a; b; c] L).
  apply header_pattern_shape. eauto.
Qed.

Lemma extract_nonneg text h :
  extract_constituency_info text = Some h ->
  (0 <= h_number h)%Z /\ (0 <= h_electors h)%Z.
Proof.
  intros E. apply extract_some in E as (n & d1 & name & d2 & _ & -> & _).
  simpl. split; apply dec_value_nonneg.
Qed.

Lemma extract_nil : extract_constituency_info [] = None.
Proof. reflexivity. Qed.

End HeaderFacts.

(** ** The row parser *)

Section RowFacts.

Lemma int_field_raise g d r i :
  is_raise (int_field g d r i) = need r i (int_refused g).
Proof.
  unfold int_field, need, get, int_refused, int_of.
  destruct (nth_error r i) as [c|]; simpl; auto.
  destruct (truthy c && g c); simpl; auto.
  now destruct (py_int (str_of c)).
Qed.

Lemma votes_field_raise r i :
  is_raise (votes_field r i) = need r i (int_refused comma_digits).
Proof.
  unfold votes_field, need, get, int_refused, int_of.
  destruct (nth_error r i) as [c|]; simpl; auto.
  destruct (truthy c && comma_digits c); simpl; auto.
  now destruct (py_int (str_of c)).
Qed.

Lemma text_field_raise r i :
  is_raise (text_field r i) = need r i (fun _ => false).
Proof. unfold text_field, need, get. now destruct (nth_error r i). Qed.

Lemma text_field_nl_raise r i :
  is_raise (text_field_nl r i) = need r i (fun _ => false).
Proof. unfold text_field_nl, need, get. now destruct (nth_error r i). Qed.

Lemma pct_field_raise r i :
  is_raise (pct_field r i) = need r i float_refused.
Proof.
  unfold pct_field, need, get, float_refused, float_of.
  destruct (nth_error r i) as [c|]; simpl; auto.
  destruct (truthy c && nonempty (pct_text c)); simpl; auto.
  now destruct (py_float (str_of c)).
Qed.

Lemma pct_field_opt_raise r i :
  is_raise (pct_field_opt r i) = at_cell r i float_refused.
Proof.
  unfold pct_field_opt, at_cell.
  destruct (Nat.ltb_spec i (List.length r)) as [L|L].
  - rewrite pct_field_raise. unfold need.
    destruct (nth_error r i) eqn:E; auto.
    apply nth_error_None in E. lia.
  - apply nth_error_None in L. now rewrite L.
Qed.

(** The display raises exactly when one of its entries does. *)
Lemma candidate_of_row_raise r :
  is_raise (candidate_of_row r)
  = is_raise (int_field plain_digits None r 0)
    || is_raise (text_field_nl r 1)
    || is_raise (text_field r 2)
    || is_raise (int_field plain_digits None r 3)
    || is_raise (text_field r 4)
    || is_raise (text_field r 5)
    || is_raise (text_field_nl r 6)
    || is_raise (int_field comma_digits None r 7)
    || is_raise (int_field comma_digits None r 8)
    || is_raise (votes_field r 9)
    || is_raise (votes_field r 10)
    || is_raise (votes_field r 11)
    || is_raise (pct_field r 12)
    || is_raise (pct_field r 13)
    || is_raise (pct_field_opt r 14).
Proof.
  unfold candidate_of_row.
  repeat match goal with
         | |- context [bind ?m _] => destruct m; simpl; [|reflexivity]
         end.
  reflexivity.
Qed.

(** ... that is, when a cell among the first fourteen is missing or a
    guarded conversion is refused. *)
Lemma candidate_of_row_raise_exact r :
  is_raise (candidate_of_row r) = access_error r || coercion_error r.
Proof.
  rewrite candidate_of_row_raise.
  rewrite !int_field_raise, !votes_field_raise, !text_field_raise,
    !text_field_nl_raise, !pct_field_raise, pct_field_opt_raise.
  unfold access_error, coercion_error, need, at_cell.
  do 14 (destruct r as [|? r];
         [simpl; rewrite ?orb_true_r; reflexivity|]).
  simpl. rewrite ?orb_false_r. reflexivity.
Qed.

Lemma is_raise_true A (m : res A) :
  is_raise m = true <-> exists e, m = Raise e.
Proof.
  destruct m; simpl; split; intros H; try discriminate; eauto.
  destruct H; discriminate.
Qed.

(** The three ways a row is rejected, and no other. *)
Lemma parse_none_iff r :
  parse_table_row r = None <->
  (is_empty r || (List.length r <? 10)) || skip_row r
    || access_error r || coercion_error r = true.
Proof.
  unfold parse_table_row.
  destruct (is_empty r || (List.length r <? 10)); simpl; [tauto|].
  destruct (skip_row r); simpl; [tauto|].
  rewrite <- candidate_of_row_raise_exact.
  destruct (candidate_of_row r); simpl; intuition congruence.
Qed.

(** Every entry of an accepted row's record is what its own
    conditional expression gave. *)
Lemma candidate_of_row_ok r c :
  candidate_of_row r = Ok c ->
  int_field plain_digits None r 0 = Ok (serial_number c)
  /\ text_field_nl r 1 = Ok (candidate_name c)
  /\ text_field r 2 = Ok (gender c)
  /\ int_field plain_digits None r 3 = Ok (age c)
  /\ text_field r 4 = Ok (category c)
  /\ text_field r 5 = Ok (party c)
  /\ text_field_nl r 6 = Ok (symbol c)
  /\ int_field comma_digits None r 7 = Ok (total_votes_polled c)
  /\ int_field comma_digits None r 8 = Ok (valid_votes c)
  /\ votes_field r 9 = Ok (general (votes_secured c))
  /\ votes_field r 10 = Ok (postal (votes_secured c))
  /\ votes_field r 11 = Ok (total (votes_secured c))
  /\ pct_field r 12 = Ok (over_total_electors (percentage_of_votes c))
  /\ pct_field r 13 = Ok (over_total_votes_polled (percentage_of_votes c))
  /\ pct_field_opt r 14
     = Ok (over_total_valid_votes (percentage_of_votes c)).
Proof.
  unfold candidate_of_row.
  repeat match goal with
         | |- context [bind ?m _] => destruct m; simpl; [|discriminate]
         end.
  intros [= <-]. simpl. repeat split.
Qed.

Lemma parse_some r c :
  parse_table_row r = Some c ->
  10 <= List.length r /\ skip_row r = false /\ candidate_of_row r = Ok c.
Proof.
  unfold parse_table_row.
  destruct (is_empty r) eqn:E; simpl; [discriminate|].
  destruct (Nat.ltb_spec (List.length r) 10); [discriminate|].
  destruct (skip_row r); [discriminate|].
  destruct (candidate_of_row r); [|discriminate].
  intros [= ->]. auto.
Qed.

End RowFacts.

Section RowClaims.
Import Samples.

Lemma str_in_In x l : str_in x l = true <-> In x l.
Proof.
  unfold str_in, str_eqb. rewrite existsb_exists. split.
  - intros (y & I & E). destruct (list_eq_dec ascii_dec x y); congruence.
  - intros I. exists x. split; auto.
    destruct (list_eq_dec ascii_dec x x); congruence.
Qed.

Lemma with_cell_length i c r :
  i < List.length r -> List.length (with_cell i c r) = List.length r.
Proof.
  intros L. unfold with_cell.
  rewrite length_app, firstn_length_le by lia. cbn [List.length].
  rewrite length_skipn. lia.
Qed.

Lemma with_cell_other i c r j :
  i < List.length r -> j <> i -> nth_error (with_cell i c r) j = nth_error r j.
Proof.
  intros L N. unfold with_cell.
  rewrite <- (firstn_skipn i r) at 3.
  assert (F : List.length (firstn i r) = i) by (apply firstn_length_le; lia).
  destruct (Nat.lt_ge_cases j i) as [Lt|Ge].
  - rewrite !nth_error_app1 by lia. reflexivity.
  - rewrite !nth_error_app2 by lia. rewrite F.
    destruct (j - i) as [|k] eqn:K; [lia|].
    change (nth_error (c :: skipn (S i) r) (S k))
      with (nth_error (skipn (S i) r) k).
    rewrite !nth_error_skipn. f_equal. lia.
Qed.

Lemma with_cell_same_off_text i c r :
  i < List.length r -> text_column i = true -> same_off_text r (with_cell i c r).
Proof.
  intros L T. split.
  - symmetry. now apply with_cell_length.
  - intros j Tj. symmetry. apply with_cell_other; auto.
    intros ->. congruence.
Qed.

Lemma same_off_text_rejected r r' :
  same_off_text r r' ->
  (parse_table_row r = None <-> parse_table_row r' = None).
Proof.
  intros [L C]. rewrite !parse_none_iff.
  assert (E : is_empty r = is_empty r')
    by (destruct r, r'; simpl in *; auto; discriminate).
  unfold skip_row, access_error, coercion_error, at_cell.
  rewrite E, L, !C by reflexivity. reflexivity.
Qed.

Lemma text_field_absent r i x :
  text_field r i = Ok x -> nth_error r i = Some None -> x = [].
Proof. unfold text_field, get. intros H E. rewrite E in H. now inversion H. Qed.

Lemma text_field_nl_absent r i x :
  text_field_nl r i = Ok x -> nth_error r i = Some None -> x = [].
Proof.
  unfold text_field_nl, get. intros H E. rewrite E in H. now inversion H.
Qed.

Lemma pct_field_ok r i c f :
  pct_field r i = Ok f -> nth_error r i = Some c ->
  f = (if pct_guard c then py_float (str_of c) else None)
  /\ (pct_guard c = true -> f <> None).
Proof.
  unfold pct_field, get, pct_guard, float_of. intros H E. rewrite E in H.
  simpl in H. destruct (truthy c && nonempty (pct_text c)).
  - destruct (py_float (str_of c)); simpl in H; inversion H.
    split; [reflexivity | discriminate].
  - inversion H. split; [reflexivity | discriminate].
Qed.

Lemma pct_at_ok r cand i c :
  parse_table_row r = Some cand -> pct_column i = true ->
  nth_error r i = Some c ->
  pct_at i cand = (if pct_guard c then py_float (str_of c) else None)
  /\ (pct_guard c = true -> pct_at i cand <> None).
Proof.
  intros P I E. apply parse_some in P as (_ & _ & P).
  apply candidate_of_row_ok in P.
  destruct P as (_&_&_&_&_&_&_&_&_&_&_&_& P12 & P13 & P14).
  assert (L : i < List.length r)
    by (apply nth_error_Some; rewrite E; discriminate).
  unfold pct_field_opt in P14. unfold pct_column in I.
  rewrite !orb_true_iff, !Nat.eqb_eq in I.
  destruct I as [[->| ->]| ->]; simpl.
  - eapply pct_field_ok; eauto.
  - eapply pct_field_ok; eauto.
  - apply Nat.ltb_lt in L. rewrite L in P14. eapply pct_field_ok; eauto.
Qed.

End RowClaims.

(** C9.  The row parser returns on every row and rejects exactly under
    the three rules: a row is rejected if and only if it has fewer than
    10 cells, or its cell 0 is absent or reads, trimmed and in upper
    case, SL, SL NO, TOTAL or nothing, or the building of the record
    raises; a label in cell 0 rejects the row whatever the other cells
    hold; the record raises exactly on a cell access past the end of the
    row (cells 0 to 13 are read) or on a conversion refused after its
    test passed; and a rejected row leaves the rows after it to be
    processed as if it were not there. *)
Theorem row_parser_rejects_exactly :
  (forall r,
      parse_table_row r = None <->
      List.length r < 10 \/ skip_row r = true
      \/ exists e, candidate_of_row r = Raise e)
  /\ (forall r,
        skip_row r = true <->
        match r with
        | [] => True
        | None :: _ => True
        | Some s :: _ =>
            In (upper (strip s)) [lit "SL"; lit "SL NO"; lit "TOTAL"; []]
        end)
  /\ (forall c0 others others',
        skip_row (c0 :: others) = true ->
        parse_table_row (c0 :: others') = None)
  /\ (forall r,
        (exists e, candidate_of_row r = Raise e) <->
        List.length r < 14 \/ coercion_error r = true)
  /\ (forall r rs cur,
        parse_table_row r = None ->
        fold_left add_row (r :: rs) cur = fold_left add_row rs cur).
Proof.
  assert (Raises : forall r,
             (exists e, candidate_of_row r = Raise e) <->
             List.length r < 14 \/ coercion_error r = true).
  { intros r. rewrite <- is_raise_true, candidate_of_row_raise_exact.
    unfold access_error. rewrite orb_true_iff, Nat.ltb_lt. reflexivity. }
  split; [|split; [|split; [|split]]].
  - intros r. rewrite parse_none_iff, Raises.
    unfold access_error. rewrite !orb_true_iff, !Nat.ltb_lt.
    destruct r; simpl; intuition (try discriminate; lia).
  - intros [|[s|] r]; unfold skip_row; cbn [nth_error]; try tauto.
    apply str_in_In.
  - intros c0 others others' H. apply parse_none_iff.
    unfold skip_row in *. cbn [nth_error] in *.
    rewrite H. now rewrite orb_true_r.
  - exact Raises.
  - intros r rs cur H. simpl. unfold add_row at 2. now rewrite H.
Qed.

(** C10.  In an accepted row an absent cell in column 1, 2, 4, 5 or 6
    gives the empty string for [candidate_name], [gender], [category],
    [party], [symbol]; and these cells never decide a rejection: two
    rows that differ only in them are rejected together, so emptying
    one of them in an accepted row leaves the row accepted. *)
Theorem absent_text_cells_give_empty_strings :
  (forall r c,
      parse_table_row r = Some c ->
      (nth_error r 1 = Some None -> candidate_name c = [])
      /\ (nth_error r 2 = Some None -> gender c = [])
      /\ (nth_error r 4 = Some None -> category c = [])
      /\ (nth_error r 5 = Some None -> party c = [])
      /\ (nth_error r 6 = Some None -> symbol c = []))
  /\ (forall r r',
        same_off_text r r' ->
        (parse_table_row r = None <-> parse_table_row r' = None))
  /\ (forall r i,
        text_column i = true -> i < List.length r ->
        parse_table_row r <> None ->
        parse_table_row (with_cell i None r) <> None).
Proof.
  split; [|split].
  - intros r c P. apply parse_some in P as (_ & _ & P).
    apply candidate_of_row_ok in P.
    destruct P as (_ & N & G & _ & C & Pa & S & _).
    repeat split; intros E;
      first [eapply text_field_absent; eassumption
            |eapply text_field_nl_absent; eassumption].
  - exact same_off_text_rejected.
  - intros r i T L P N. apply P.
    apply (same_off_text_rejected (@with_cell_same_off_text i None r L T)).
    exact N.
Qed.

(** The row of the sample document keeps its record when its party
    cell is emptied. *)
Lemma absent_text_cells_witness :
  parse_table_row (Samples.with_party_absent) <> None.
Proof.
  destruct absent_text_cells_give_empty_strings as (_ & _ & H).
  apply (H Samples.data_row 5); [reflexivity | simpl; lia |].
  vm_compute. discriminate.
Defined.

(** C1, at the row whose cell 7 reads 12,345.  The test in front of
    [int()] takes the comma out and passes; [int()] gets the cell with
    its comma, refuses it, and the row is rejected, where the same row
    with 12345 is accepted with 12345 votes polled. *)
Theorem comma_in_vote_count_rejects_row :
  nth_error Samples.comma_row 7 = Some (Some (lit "12,345"))
  /\ comma_digits (Some (lit "12,345")) = true
  /\ dec_value (replace comma [] (strip (lit "12,345"))) = 12345%Z
  /\ py_int (lit "12,345") = None
  /\ parse_table_row Samples.comma_row = None
  /\ option_map total_votes_polled (parse_table_row Samples.data_row)
     = Some (Some 12345%Z).
Proof. vm_compute. repeat split. Qed.

(** C3 fails at the row whose cell 12 reads abc: the cell is not empty
    once commas, percent signs and dashes are taken out, yet the entry
    is no float: the row is rejected. *)
Lemma word_in_percentage_column_rejects_row :
  nth_error Samples.word_row 12 = Some (Some (lit "abc"))
  /\ pct_guard (Some (lit "abc")) = true
  /\ ~ (exists cand f,
          parse_table_row Samples.word_row = Some cand
          /\ pct_at 12 cand = Some f).
Proof.
  split; [reflexivity|]. split; [reflexivity|].
  intros (cand & f & P & _). vm_compute in P. discriminate.
Qed.

(** C3, amended.  In an accepted row, each of the entries filled from
    cells 12, 13 and 14 is absent exactly when its cell is empty or
    becomes empty once trimmed and rid of commas, percent signs and
    dashes (cell 14 also when the row has no more than 14 cells), and is
    a float otherwise; a cell that reads - gives an absent entry.  A
    cell without comma, percent sign or dash that passes the test gives
    the float [float()] reads from it, and rejects the row when
    [float()] refuses it. *)
Theorem percentage_fields_of_accepted_rows :
  (forall r cand i c,
      parse_table_row r = Some cand -> pct_column i = true ->
      nth_error r i = Some c ->
      (pct_at i cand = None <-> pct_guard c = false)
      /\ (plain_cell c -> pct_guard c = true ->
          pct_at i cand = py_float (str_of c)))
  /\ (forall r cand,
        parse_table_row r = Some cand -> List.length r <= 14 ->
        pct_at 14 cand = None)
  /\ (forall r cand i,
        parse_table_row r = Some cand -> pct_column i = true ->
        nth_error r i = Some (Some (lit "-")) ->
        pct_at i cand = None)
  /\ (forall r i c,
        pct_column i = true -> nth_error r i = Some c ->
        plain_cell c -> pct_guard c = true ->
        py_float (str_of c) = None ->
        parse_table_row r = None).
Proof.
  split; [|split; [|split]].
  - intros r cand i c P I E.
    destruct (@pct_at_ok r cand i c P I E) as [V S]. split; [split|].
    + intros N. destruct (pct_guard c); auto. now destruct S.
    + intros G. now rewrite G in V.
    + intros _ G. now rewrite G in V.
  - intros r cand P L. apply parse_some in P as (_ & _ & P).
    apply candidate_of_row_ok in P.
    destruct P as (_&_&_&_&_&_&_&_&_&_&_&_&_&_& P14).
    unfold pct_field_opt in P14.
    destruct (Nat.ltb_spec 14 (List.length r)); [lia|].
    simpl. congruence.
  - intros r cand i P I E.
    destruct (@pct_at_ok r cand i _ P I E) as [-> _]. reflexivity.
  - intros r i c I E _ G F.
    destruct (parse_table_row r) as [cand|] eqn:P; auto.
    destruct (@pct_at_ok r cand i c P I E) as [V S].
    rewrite G, F in V. now destruct (S G).
Qed.

(** The sample row with a dash in cell 12 is accepted and its first
    percentage is absent. *)
Lemma percentage_fields_witness :
  option_map (pct_at 12) (parse_table_row Samples.dash_row) = Some None.
Proof.
  destruct percentage_fields_of_accepted_rows as (_ & _ & H & _).
  destruct (parse_table_row Samples.dash_row) as [cand|] eqn:P;
    [|vm_compute in P; discriminate].
  simpl. f_equal. apply (H Samples.dash_row cand 12 P); reflexivity.
Defined.

(** ** The page loop *)

Section LoopFacts.

Lemma add_table_rows cur t :
  add_table cur t = fold_left add_row (table_rows t) cur.
Proof.
  unfold add_table, table_rows.
  now destruct (is_empty t || (List.length t <? 2)).
Qed.

Lemma add_tables_rows ts : forall cur,
  fold_left add_table ts cur = fold_left add_row (flat_map table_rows ts) cur.
Proof.
  induction ts as [|t ts IH]; intros cur; simpl; auto.
  now rewrite fold_left_app, IH, add_table_rows.
Qed.

(** One page, seen from outside: a header page closes the current
    record and opens one that takes the page's rows; any other page
    feeds its rows to the current record, if there is one. *)
Lemma page_step_cases res cur p :
  page_step (res, cur) p =
  match page_header p with
  | Some h => (res ++ flushed cur,
               Some (fold_left add_row (page_rows p) (new_constituency h)))
  | None => (res, option_map (fold_left add_row (page_rows p)) cur)
  end.
Proof.
  unfold page_step, page_header, page_rows, readable.
  destruct (extract_text p) as [[|c text]|]; simpl;
    try (now destruct cur).
  unfold on_header.
  destruct (extract_constituency_info (c :: text)) as [h|]; simpl.
  - unfold on_tables. simpl. rewrite add_tables_rows.
    destruct (extract_tables p); destruct cur; simpl;
      now rewrite ?app_nil_r.
  - unfold on_tables. simpl. destruct cur as [cur|]; simpl; auto.
    rewrite add_tables_rows. now destruct (extract_tables p).
Qed.

(** The loop against the document cut at its header pages. *)
Lemma loop_segments pages : forall res cur,
  flush (fold_left page_step pages (res, cur))
  = res
    ++ flushed (option_map (fold_left add_row (fst (segments pages))) cur)
    ++ map build (snd (segments pages)).
Proof.
  induction pages as [|p ps IH]; intros res cur.
  - simpl. unfold flush. simpl. destruct cur; simpl; now rewrite ?app_nil_r.
  - cbn [fold_left segments]. rewrite page_step_cases.
    destruct (segments ps) as [pre segs] eqn:S.
    destruct (page_header p) as [h|]; rewrite IH; simpl.
    + unfold build at 2. simpl. rewrite fold_left_app.
      rewrite <- app_assoc. now destruct cur.
    + destruct cur; simpl; auto. now rewrite fold_left_app.
Qed.

Lemma output_segments pages :
  constituencies (extract_pdf_to_json pages)
  = map build (snd (segments pages)).
Proof. unfold extract_pdf_to_json. simpl. now rewrite loop_segments. Qed.

Lemma segments_headers pages :
  map fst (snd (segments pages)) = headers pages.
Proof.
  induction pages as [|p ps IH]; simpl; auto.
  destruct (segments ps) as [pre segs]. simpl in IH.
  destruct (page_header p); simpl; congruence.
Qed.

Lemma add_row_cases cur r :
  (add_row cur r = cur
   /\ (forall cand, admissible r = Some cand ->
         existing (candidates cur) (serial_number cand) <> None))
  \/ (exists cand,
        admissible r = Some cand
        /\ existing (candidates cur) (serial_number cand) = None
        /\ add_row cur r = append_candidate cur cand).
Proof.
  unfold add_row, admissible.
  destruct (parse_table_row r) as [cand|]; [|left; split; [auto|discriminate]].
  destruct (serial_number cand) as [n|] eqn:E;
    [|left; split; [auto|discriminate]].
  destruct (existing (candidates cur) (Some n)) eqn:X.
  - left. split; auto. intros cand' [= <-]. rewrite E, X. discriminate.
  - right. exists cand. rewrite E. auto.
Qed.

Lemma add_row_header cur r : header_of (add_row cur r) = header_of cur.
Proof.
  destruct (add_row_cases cur r) as [[-> _]|(cand & _ & _ & ->)]; auto.
Qed.

Lemma fold_add_row_header rows : forall cur,
  header_of (fold_left add_row rows cur) = header_of cur.
Proof.
  induction rows as [|r rows IH]; intros cur; simpl; auto.
  now rewrite IH, add_row_header.
Qed.

Lemma build_header seg : header_of (build seg) = fst seg.
Proof.
  unfold build. rewrite fold_add_row_header. now destruct seg as [[] ?].
Qed.

(** The headers of the output are the header matches of the pages, one
    for one and in page order. *)
Lemma output_headers pages :
  map header_of (constituencies (extract_pdf_to_json pages)) = headers pages.
Proof.
  rewrite output_segments, map_map, <- segments_headers.
  apply map_ext. exact build_header.
Qed.

(** The list of flushed records only grows at its end. *)
Lemma page_step_extends st p :
  exists more, fst (page_step st p) = fst st ++ more.
Proof.
  destruct st as [res cur]. rewrite page_step_cases.
  destruct (page_header p); simpl; [eauto|].
  exists []. now rewrite app_nil_r.
Qed.

Lemma loop_extends pages : forall st,
  exists more, fst (fold_left page_step pages st) = fst st ++ more.
Proof.
  induction pages as [|p ps IH]; intros st; simpl.
  - exists []. now rewrite app_nil_r.
  - destruct (IH (page_step st p)) as [m ->].
    destruct (page_step_extends st p) as [m' ->].
    exists (m' ++ m). now rewrite app_assoc.
Qed.

Lemma headers_page_header pages h :
  In h (headers pages) -> exists p, In p pages /\ page_header p = Some h.
Proof.
  unfold headers. rewrite in_flat_map. intros (p & I & H).
  exists p. split; auto. destruct (page_header p); simpl in H; [|easy].
  destruct H as [->|[]]. reflexivity.
Qed.

Lemma page_header_nonneg p h :
  page_header p = Some h -> (0 <= h_number h)%Z /\ (0 <= h_electors h)%Z.
Proof.
  unfold page_header. destruct (extract_text p); [|discriminate].
  destruct (readable p); [|discriminate]. apply extract_nonneg.
Qed.

End LoopFacts.

(** ** Admission of candidates *)

Section AdmissionFacts.

Lemma serial_eqb_eq a b : serial_eqb a b = true <-> a = b.
Proof.
  destruct a, b; simpl; split; try easy.
  - intros H. apply Z.eqb_eq in H. congruence.
  - intros [= ->]. apply Z.eqb_refl.
Qed.

Lemma existing_none cands n :
  existing cands n = None <->
  forall c, In c cands -> serial_number c <> n.
Proof.
  unfold existing. split.
  - intros H c I E. apply (find_none _ _ H) in I.
    apply serial_eqb_eq in E. congruence.
  - intros H. destruct (find _ cands) as [c|] eqn:F; auto.
    apply find_some in F as [I E]. apply serial_eqb_eq in E.
    now destruct (H c I).
Qed.

Lemma add_row_keeps cur r cand :
  In cand (candidates cur) -> In cand (candidates (add_row cur r)).
Proof.
  intros I. destruct (add_row_cases cur r) as [[-> _]|(c & _ & _ & ->)]; auto.
  simpl. apply in_or_app. now left.
Qed.

Lemma fold_add_row_keeps rows : forall cur cand,
  In cand (candidates cur) ->
  In cand (candidates (fold_left add_row rows cur)).
Proof.
  induction rows as [|r rows IH]; intros cur cand I; simpl; auto.
  apply IH. now apply add_row_keeps.
Qed.

Lemma NoDup_snoc A (l : list A) a : NoDup l -> ~ In a l -> NoDup (l ++ [a]).
Proof.
  induction l as [|x l IH]; simpl; intros N I.
  - constructor; [easy | constructor].
  - inversion N; subst. constructor.
    + rewrite in_app_iff. simpl. intuition congruence.
    + apply IH; auto.
Qed.

Lemma add_row_nodup cur r :
  NoDup (map serial_number (candidates cur)) ->
  NoDup (map serial_number (candidates (add_row cur r))).
Proof.
  intros N. destruct (add_row_cases cur r) as [[-> _]|(c & _ & X & ->)]; auto.
  simpl. rewrite map_app. simpl. apply NoDup_snoc; auto.
  rewrite in_map_iff. intros (d & E & I).
  rewrite existing_none in X. now apply (X d I).
Qed.

Lemma fold_add_row_nodup rows : forall cur,
  NoDup (map serial_number (candidates cur)) ->
  NoDup (map serial_number (candidates (fold_left add_row rows cur))).
Proof.
  induction rows as [|r rows IH]; intros cur N; simpl; auto.
  apply IH. now apply add_row_nodup.
Qed.

(** Every serial number met in the rows is held by a kept candidate. *)
Lemma fold_add_row_covers rows : forall cur r cand,
  In r rows -> admissible r = Some cand ->
  exists kept,
    In kept (candidates (fold_left add_row rows cur))
    /\ serial_number kept = serial_number cand.
Proof.
  induction rows as [|r0 rows IH]; intros cur r cand I A; [easy|].
  simpl. destruct I as [->|I]; [|eauto].
  destruct (add_row_cases cur r) as [[E X]|(c & A' & _ & E)]; rewrite E.
  - specialize (X cand A).
    destruct (existing (candidates cur) (serial_number cand)) as [k|] eqn:F;
      [|congruence].
    unfold existing in F. apply find_some in F as [Ik Ek].
    apply serial_eqb_eq in Ek. exists k. split; auto.
    now apply fold_add_row_keeps.
  - assert (c = cand) by congruence. subst c.
    exists cand. split; auto. apply fold_add_row_keeps.
    simpl. apply in_or_app. right. now left.
Qed.

(** A kept candidate comes from the first row with its serial number. *)
Lemma fold_add_row_first h rows : forall cand,
  In cand (candidates (fold_left add_row rows (new_constituency h))) ->
  exists before r after,
    rows = before ++ r :: after
    /\ admissible r = Some cand
    /\ forall r' c', In r' before -> admissible r' = Some c' ->
                     serial_number c' <> serial_number cand.
Proof.
  induction rows as [|r0 rows IH] using rev_ind; intros cand I; [easy|].
  rewrite fold_left_app in I. simpl in I.
  set (cur := fold_left add_row rows (new_constituency h)) in *.
  assert (Old : In cand (candidates cur) ->
                exists before r after,
                  rows ++ [r0] = before ++ r :: after
                  /\ admissible r = Some cand
                  /\ forall r' c', In r' before -> admissible r' = Some c' ->
                                   serial_number c' <> serial_number cand).
  { intros J. destruct (IH cand J) as (b & r & a & -> & A & F).
    exists b, r, (a ++ [r0]). rewrite <- app_assoc. simpl. auto. }
  destruct (add_row_cases cur r0) as [[E _]|(c & A & X & E)];
    rewrite E in I; auto.
  simpl in I. apply in_app_or in I as [I|[<-|[]]]; auto.
  exists rows, r0, []. repeat split; auto.
  intros r' c' J A' S.
  destruct (fold_add_row_covers rows (new_constituency h) r' J A')
    as (k & Ik & Ek).
  rewrite existing_none in X. apply (X k Ik). congruence.
Qed.

Lemma admissible_serial r cand :
  admissible r = Some cand ->
  parse_table_row r = Some cand
  /\ exists n, serial_number cand = Some n /\ (0 <= n)%Z.
Proof.
  unfold admissible. destruct (parse_table_row r) as [c|] eqn:P; [|easy].
  destruct (serial_number c) as [n|] eqn:S; [|easy].
  intros [= <-]. split; auto. exists n. split; auto.
  apply parse_some in P as (_ & _ & P). apply candidate_of_row_ok in P.
  destruct P as (P & _). rewrite S in P.
  unfold int_field, get, int_of in P.
  destruct (nth_error r 0) as [c0|]; simpl in P; [|discriminate].
  destruct (truthy c0 && plain_digits c0) eqn:G; [|discriminate].
  apply andb_true_iff in G as [_ G].
  destruct (py_int (str_of c0)) as [z|] eqn:Z; simpl in P; [|discriminate].
  injection P as ->. apply (py_int_nonneg _ Z).
  apply (digits_no_minus false). exact G.
Qed.

Lemma output_build pages c :
  In c (constituencies (extract_pdf_to_json pages)) ->
  exists seg, In seg (snd (segments pages)) /\ c = build seg.
Proof.
  rewrite output_segments, in_map_iff. intros (seg & <- & I). eauto.
Qed.

End AdmissionFacts.

(** ** The claims on the page loop *)

(** C4.  Every record started at a header page is in the output once,
    at the place of its header: the output is the list of the records
    of the document's segments, one segment for each header match, so
    the headers of the output are the header matches of the pages, one
    for one and in page order; and a record flushed when the next
    header came stays where it was put, whatever pages follow. *)
Theorem constituencies_flushed_once_in_order (pages : list page) :
  constituencies (extract_pdf_to_json pages)
  = map build (snd (segments pages))
  /\ map fst (snd (segments pages)) = headers pages
  /\ map header_of (constituencies (extract_pdf_to_json pages))
     = headers pages
  /\ List.length (constituencies (extract_pdf_to_json pages))
     = List.length (headers pages)
  /\ (forall before after,
        pages = before ++ after ->
        exists later,
          constituencies (extract_pdf_to_json pages)
          = fst (fold_left page_step before ([], None)) ++ later).
Proof.
  split; [apply output_segments|].
  split; [apply segments_headers|].
  split; [apply output_headers|].
  split.
  - rewrite <- (output_headers pages). now rewrite length_map.
  - intros before after ->. unfold extract_pdf_to_json. simpl.
    rewrite fold_left_app.
    destruct (loop_extends after (fold_left page_step before ([], None)))
      as [more E].
    unfold flush. rewrite E.
    destruct (snd (fold_left page_step after _)).
    + exists (more ++ [c]). now rewrite app_assoc.
    + now exists more.
Qed.

(** C5.  In every record of the output the candidates have pairwise
    different serial numbers.  The record of a segment keeps, of the
    rows that parse with a serial number, the first one for each serial
    number: a kept candidate comes from a row before which no row
    carries its serial number, and every serial number met in the rows
    is held by a kept candidate. *)
Theorem candidates_unique_first_wins (pages : list page) :
  (forall c,
      In c (constituencies (extract_pdf_to_json pages)) ->
      NoDup (map serial_number (candidates c)))
  /\ constituencies (extract_pdf_to_json pages)
     = map build (snd (segments pages))
  /\ (forall h rows cand,
        In cand (candidates (build (h, rows))) ->
        exists before r after,
          rows = before ++ r :: after
          /\ admissible r = Some cand
          /\ forall r' c', In r' before -> admissible r' = Some c' ->
                           serial_number c' <> serial_number cand)
  /\ (forall h rows r cand,
        In r rows -> admissible r = Some cand ->
        exists kept,
          In kept (candidates (build (h, rows)))
          /\ serial_number kept = serial_number cand).
Proof.
  split; [|split; [apply output_segments|split]].
  - intros c I. apply output_build in I as (seg & _ & ->).
    apply fold_add_row_nodup. constructor.
  - intros h rows cand I. exact (fold_add_row_first h rows cand I).
  - intros h rows r cand I A.
    exact (fold_add_row_covers rows (new_constituency h) r I A).
Qed.

(** C6 fails twice: a header sentence printed on two pages gives two
    records with the same number, and a header with number 0 gives a
    record whose number is not positive. *)
Lemma repeated_header_repeats_number :
  ~ NoDup (map constituency_number
             (constituencies (extract_pdf_to_json Samples.repeated_header)))
  /\ map constituency_number
       (constituencies
          (extract_pdf_to_json [mk_page (Some Samples.text0) []]))
     = [0%Z].
Proof.
  split; [|vm_compute; reflexivity].
  assert (E : map constituency_number
                (constituencies (extract_pdf_to_json Samples.repeated_header))
              = [1; 1]%Z) by (vm_compute; reflexivity).
  rewrite E. intros N. inversion N; subst. apply H1. now left.
Qed.

(** C6, amended.  The constituency numbers of the output are the
    numbers of the header matches, page by page; each is a natural
    number (zero included); they are pairwise different exactly when no
    two header matches of the document carry the same number. *)
Theorem constituency_numbers_follow_headers (pages : list page) :
  map constituency_number (constituencies (extract_pdf_to_json pages))
  = map h_number (headers pages)
  /\ (forall c,
        In c (constituencies (extract_pdf_to_json pages)) ->
        (0 <= constituency_number c)%Z)
  /\ (NoDup (map constituency_number
               (constituencies (extract_pdf_to_json pages)))
      <-> NoDup (map h_number (headers pages))).
Proof.
  assert (E : map constituency_number
                (constituencies (extract_pdf_to_json pages))
              = map h_number (headers pages)).
  { rewrite <- (output_headers pages), map_map. reflexivity. }
  split; [exact E|]. split; [|now rewrite E].
  intros c I.
  assert (J : In (header_of c) (headers pages))
    by (rewrite <- output_headers; now apply in_map).
  apply headers_page_header in J as (p & _ & H).
  apply page_header_nonneg in H. apply H.
Qed.

(** C7 fails at a row whose serial number reads 0: the candidate is
    admitted, with a serial number that is not positive. *)
Lemma serial_zero_admitted :
  ~ (forall c cand,
        In c (constituencies
                (extract_pdf_to_json
                   [mk_page (Some Samples.text1)
                      [[Samples.label_row; Samples.label_row;
                        Samples.zero_row]]])) ->
        In cand (candidates c) ->
        exists n, serial_number cand = Some n /\ (0 < n)%Z).
Proof.
  intros H.
  set (doc := [mk_page (Some Samples.text1)
                 [[Samples.label_row; Samples.label_row;
                   Samples.zero_row]]]) in *.
  destruct (constituencies (extract_pdf_to_json doc)) as [|c l] eqn:E;
    [vm_compute in E; discriminate|].
  destruct (candidates c) as [|cand l'] eqn:C.
  - vm_compute in E. injection E as <- _. discriminate.
  - destruct (H c cand) as (n & S & P); [now left | rewrite C; now left |].
    vm_compute in E. injection E as <- _.
    injection C as <- _. simpl in S. injection S as <-. lia.
Qed.

(** C7, amended.  Every candidate of every record of the output has a
    serial number, a natural number (zero included).  A row that parses
    without a serial number leaves the current record as it is, and the
    serial number of an accepted row is absent exactly when its cell 0,
    trimmed, is not all digits. *)
Theorem admitted_candidates_have_serial (pages : list page) :
  (forall c cand,
      In c (constituencies (extract_pdf_to_json pages)) ->
      In cand (candidates c) ->
      exists n, serial_number cand = Some n /\ (0 <= n)%Z)
  /\ (forall cur r cand,
        parse_table_row r = Some cand -> serial_number cand = None ->
        add_row cur r = cur)
  /\ (forall r cand c0,
        parse_table_row r = Some cand -> nth_error r 0 = Some c0 ->
        (serial_number cand = None <-> plain_digits c0 = false)).
Proof.
  split; [|split].
  - intros c cand I J. apply output_build in I as ([h rows] & _ & ->).
    apply fold_add_row_first in J as (b & r & a & _ & A & _).
    now apply admissible_serial in A.
  - intros cur r cand P S. unfold add_row. now rewrite P, S.
  - intros r cand c0 P E. apply parse_some in P as (_ & K & P).
    apply candidate_of_row_ok in P. destruct P as (P & _).
    unfold int_field, get, int_of in P. rewrite E in P. simpl in P.
    assert (T : truthy c0 = true).
    { unfold skip_row in K. rewrite E in K.
      destruct c0 as [[|x s]|]; try discriminate; reflexivity. }
    rewrite T in P. simpl in P.
    destruct (plain_digits c0).
    + destruct (py_int (str_of c0)); simpl in P; [|discriminate].
      injection P as <-. split; discriminate.
    + injection P as <-. split; reflexivity.
Qed.

(** C2 fails at the document of the scenario: the data row is the
    second row of its table, and the loop starts at the third. *)
Lemma scenario_first_record_empty :
  ~ (exists c1 c2,
        constituencies (extract_pdf_to_json Samples.scenario) = [c1; c2]
        /\ List.length (candidates c1) = 1
        /\ List.length (candidates c2) = 0).
Proof.
  intros (c1 & c2 & E & L1 & _). vm_compute in E.
  injection E as <- _. discriminate.
Qed.

(** C2, amended.  For a document of two pages, the first with a header
    sentence and one table, the second with a header sentence and no
    table, the output holds two records, in that order, with the two
    headers.  When the table is one row of labels and one data row,
    both records have no candidate: the first two rows of a table are
    never read.  When the data row comes after two rows of labels and
    parses with a serial number, the first record has this one
    candidate and the second none. *)
Theorem two_page_scenario (t1 t2 : str) (h1 h2 : header)
    (labels labels' data : row) :
  extract_constituency_info t1 = Some h1 ->
  extract_constituency_info t2 = Some h2 ->
  constituencies
    (extract_pdf_to_json
       [mk_page (Some t1) [[labels; data]]; mk_page (Some t2) []])
  = [new_constituency h1; new_constituency h2]
  /\ (forall cand,
        admissible data = Some cand ->
        constituencies
          (extract_pdf_to_json
             [mk_page (Some t1) [[labels; labels'; data]];
              mk_page (Some t2) []])
        = [append_candidate (new_constituency h1) cand;
           new_constituency h2]).
Proof.
  intros H1 H2.
  assert (P : forall t h tabs,
             extract_constituency_info t = Some h ->
             page_header (mk_page (Some t) tabs) = Some h).
  { intros [|x t] h tabs H; [rewrite extract_nil in H; discriminate|].
    exact H. }
  assert (R : forall t, page_rows (mk_page (Some t) []) = []).
  { intros t. unfold page_rows. now destruct (readable _). }
  assert (N1 : t1 <> []) by (intros ->; rewrite extract_nil in H1; discriminate).
  split.
  - rewrite output_segments. simpl.
    rewrite (P t1 h1 _ H1), (P t2 h2 _ H2). simpl.
    rewrite (R t2). unfold build, page_rows, readable. simpl.
    destruct t1; [congruence|]. reflexivity.
  - intros cand A. rewrite output_segments. simpl.
    rewrite (P t1 h1 _ H1), (P t2 h2 _ H2). simpl.
    rewrite (R t2). unfold build, page_rows, readable. simpl.
    destruct t1; [congruence|]. simpl.
    destruct (add_row_cases (new_constituency h1) data)
      as [[_ X]|(c & A' & _ & ->)].
    + now destruct (X cand A).
    + congruence.
Qed.

(** The scenario with two rows of labels above the sample data row. *)
Lemma two_page_scenario_witness :
  constituencies (extract_pdf_to_json Samples.scenario2)
  = [append_candidate (new_constituency Samples.header1)
       Samples.data_candidate;
     new_constituency Samples.header2].
Proof.
  refine (proj2 (@two_page_scenario Samples.text1 Samples.text2
                   Samples.header1 Samples.header2 Samples.label_row
                   Samples.label_row Samples.data_row _ _)
                Samples.data_candidate _);
    vm_compute; reflexivity.
Defined.

(* ------------------------------------------------------------------ *)
(** * Further properties *)

(** ** Trimming and guarded conversions *)

Section TrimFacts.

Lemma rstrip_incl p s c : In c (rstrip_by p s) -> In c s.
Proof.
  destruct (rstrip_split p s) as [b [E _]]. intros H.
  rewrite E. apply in_or_app. now left.
Qed.

Lemma filter_all A (f : A -> bool) l :
  (forall x, In x l -> f x = true) -> filter f l = l.
Proof.
  induction l as [|x l IH]; simpl; intros H; auto.
  rewrite (H x) by now left. f_equal. apply IH. intros y I. apply H. now right.
Qed.

(** Digits between two runs of white space: trimming gives the
    digits. *)
Lemma strip_digits_between a d b :
  forallb is_space a = true -> forallb is_space b = true ->
  forallb is_digit d = true -> d <> [] ->
  strip (a ++ d ++ b) = d.
Proof.
  intros A B D N. unfold strip, strip_by, lstrip_by, rstrip_by.
  destruct d as [|c d]; [congruence|]. clear N.
  assert (Hc : is_space c = false).
  { simpl in D. apply andb_true_iff in D as [D _]. now apply digit_not_space. }
  simpl app at 2. rewrite drop_while_app_stop by assumption.
  destruct (rev (c :: d)) as [|x l] eqn:R.
  { apply (f_equal (@List.length ascii)) in R.
    rewrite length_rev in R. discriminate. }
  assert (Hx : is_space x = false).
  { apply digit_not_space.
    rewrite forallb_forall in D. apply D. apply in_rev. rewrite R. now left. }
  change (c :: d ++ b) with ((c :: d) ++ b).
  rewrite rev_app_distr, R.
  rewrite drop_while_app_stop by (rewrite ?forallb_rev'; assumption).
  rewrite <- R. apply rev_involutive.
Qed.

Lemma replace_digits m x :
  forallb is_digit (replace comma [] m) = true -> In x m ->
  x = comma \/ is_digit x = true.
Proof.
  intros H I. destruct (ascii_dec x comma) as [|N]; [now left|right].
  rewrite forallb_forall in H. apply H. now apply replace_incl.
Qed.

(** When the test with commas taken out passes and [int()] accepts the
    text all the same, the trimmed text is all digits, comma free, and
    [int()] gives its base-ten value. *)
Lemma py_int_guarded s z :
  isdigit (replace comma [] (strip s)) = true -> py_int s = Some z ->
  isdigit (strip s) = true /\ z = dec_value (strip s).
Proof.
  intros G P. apply isdigit_all in G as [G _].
  destruct (strip_split is_space s) as (a & b & E & Fa & Fb).
  fold (strip s) in E.
  assert (Chars : forall x, In x s ->
                    is_space x = true \/ x = comma \/ is_digit x = true).
  { intros x I. rewrite E in I. rewrite forallb_forall in Fa, Fb.
    apply in_app_or in I as [I|I]; [left; auto|].
    apply in_app_or in I as [I|I]; [right|left; auto].
    now apply (replace_digits (strip s)). }
  assert (NotIn : forall x : ascii,
             is_space x = false -> x <> comma -> is_digit x = false ->
             ~ In x s).
  { intros x S C D I. destruct (Chars x I) as [H|[H|H]]; congruence. }
  unfold py_int, lstrip_by in P.
  destruct (drop_while_split is_cspace s) as (a' & Ea & Fa').
  set (s1 := drop_while is_cspace s) in *.
  assert (T : take_sign s1 = (false, s1)).
  { unfold take_sign. destruct s1 as [|c t] eqn:S1; auto.
    assert (I : In c s) by (rewrite Ea; apply in_or_app; right; now left).
    destruct (Ascii.eqb_spec c "-") as [->|_];
      [now apply NotIn in I|].
    destruct (Ascii.eqb_spec c "+") as [->|_];
      [now apply NotIn in I|]. reflexivity. }
  rewrite T in P.
  destruct (rstrip_split is_cspace s1) as (b' & Eb & Fb').
  set (body := rstrip_by is_cspace s1) in *.
  assert (U : no_underscore body = body).
  { apply filter_all. intros x I.
    destruct (Ascii.eqb_spec x "_") as [->|_]; auto.
    exfalso. apply (NotIn "_"%char); try easy.
    rewrite Ea, Eb. apply in_or_app. right. apply in_or_app. now left. }
  rewrite U in P.
  destruct (underscores_ok None body && isdigit body) eqn:C; [|discriminate].
  destruct (int_max_str_digits <? List.length body); [discriminate|].
  apply andb_true_iff in C as [_ C]. injection P as <-.
  apply isdigit_all in C as [C N].
  assert (S : strip s = body).
  { rewrite Ea, Eb at 1. apply strip_digits_between; auto;
      rewrite forallb_forall in *; intros x I; apply cspace_is_space; auto. }
  rewrite S. split; [now apply isdigit_all | reflexivity].
Qed.

Lemma replace_none old s : ~ In old s -> replace old [] s = s.
Proof.
  induction s as [|c s IH]; simpl; auto. intros N.
  destruct (Ascii.eqb_spec c old) as [->|_]; [destruct N; now left|].
  simpl. f_equal. apply IH. intros I. apply N. now right.
Qed.

Lemma digits_no_comma s : forallb is_digit s = true -> ~ In comma s.
Proof.
  intros D I. rewrite forallb_forall in D. apply D in I. discriminate.
Qed.

Lemma py_int_plain s z :
  isdigit (strip s) = true -> py_int s = Some z -> z = dec_value (strip s).
Proof.
  intros G P. apply (py_int_guarded s); auto.
  rewrite replace_none; auto. apply digits_no_comma.
  now apply isdigit_all in G.
Qed.

(** What [strip] leaves has no white space at either end, and is left
    alone by a second [strip]. *)
Lemma drop_while_clean p s :
  match drop_while p s with [] => True | c :: _ => p c = false end.
Proof.
  induction s as [|c s IH]; simpl; auto.
  destruct (p c) eqn:E; simpl; auto.
Qed.

Lemma strip_ends_clean p s : ends_clean p (strip_by p s).
Proof.
  unfold strip_by, lstrip_by, rstrip_by, ends_clean.
  rewrite rev_involutive. split; [|apply drop_while_clean].
  pose proof (drop_while_clean p s) as H.
  destruct (rstrip_split p (drop_while p s)) as (b & E & _).
  unfold rstrip_by in E.
  destruct (rev (drop_while p (rev (drop_while p s)))) as [|c t]; auto.
  rewrite E in H. exact H.
Qed.

Lemma ends_clean_strip p s : ends_clean p s -> strip_by p s = s.
Proof.
  unfold ends_clean, strip_by, lstrip_by, rstrip_by. intros [H T].
  assert (L : drop_while p s = s)
    by (destruct s; auto; now apply drop_while_head).
  rewrite L.
  destruct (rev s) as [|c t] eqn:R.
  - simpl. apply (f_equal (@rev ascii)) in R.
    now rewrite rev_involutive in R.
  - rewrite drop_while_head by assumption. rewrite <- R.
    apply rev_involutive.
Qed.

Lemma replace_snoc old new s c :
  replace old new (s ++ [c])
  = replace old new s ++ (if Ascii.eqb c old then new else [c]).
Proof.
  unfold replace. rewrite flat_map_app. simpl. now rewrite app_nil_r.
Qed.

(** Line feeds turned into blanks inside a trimmed text: the text is
    still trimmed, and holds no line feed. *)
Lemma replace_newline_clean s :
  ends_clean is_space s ->
  ends_clean is_space (replace newline (lit " ") s).
Proof.
  intros [H T]. split.
  - destruct s as [|c s]; simpl; auto.
    destruct (Ascii.eqb_spec c newline) as [->|_]; [discriminate|].
    exact H.
  - clear H. destruct (rev s) as [|c t] eqn:R.
    + apply (f_equal (@rev ascii)) in R. rewrite rev_involutive in R.
      subst s. simpl. auto.
    + assert (E : s = rev t ++ [c])
        by (rewrite <- (rev_involutive s), R; reflexivity).
      rewrite E, replace_snoc.
      destruct (Ascii.eqb_spec c newline) as [->|_]; [discriminate|].
      rewrite rev_app_distr. exact T.
Qed.

Lemma replace_newline_gone s :
  ~ In newline (replace newline (lit " ") s).
Proof.
  unfold replace. rewrite in_flat_map. intros (c & _ & I).
  destruct (Ascii.eqb c newline) eqn:E.
  - destruct I as [I|[]]. discriminate.
  - destruct I as [I|[]]. subst c. discriminate.
Qed.

Lemma strip_incl p s c : In c (strip_by p s) -> In c s.
Proof.
  destruct (strip_split p s) as (a & b & E & _). intros I.
  rewrite E. apply in_or_app. right. apply in_or_app. now left.
Qed.

End TrimFacts.

(** ** More on the row parser *)

Section RowEntries.

Lemma cell_at (r : row) i :
  i < List.length r -> nth_error r i = Some (nth i r None).
Proof. intros L. now apply nth_error_nth'. Qed.

Lemma parse_some_length r c : parse_table_row r = Some c -> 14 <= List.length r.
Proof.
  intros P.
  destruct (parse_table_row r) as [c'|] eqn:E; [|discriminate].
  assert (N : parse_table_row r <> None) by congruence.
  rewrite parse_none_iff in N.
  destruct (Nat.ltb_spec (List.length r) 14) as [L|L]; auto.
  exfalso. apply N. unfold access_error.
  apply Nat.ltb_lt in L. rewrite L. now rewrite orb_true_r.
Qed.

Lemma int_entry_nonneg guard c z :
  int_entry guard c = Some z -> (0 <= z)%Z.
Proof.
  unfold int_entry. destruct (truthy c && guard c); [|discriminate].
  intros [= <-]. apply dec_value_nonneg.
Qed.

Lemma int_field_plain r i v :
  int_field plain_digits None r i = Ok v -> i < List.length r ->
  v = int_entry plain_digits (nth i r None).
Proof.
  unfold int_field, get, int_of, int_entry. intros H L.
  rewrite (@cell_at r i L) in H. simpl in H.
  set (c := nth i r None) in *.
  destruct (truthy c && plain_digits c) eqn:G; [|now inversion H].
  apply andb_true_iff in G as [_ G].
  destruct (py_int (str_of c)) as [z|] eqn:Z; simpl in H; [|discriminate].
  inversion H. f_equal. now apply py_int_plain.
Qed.

Lemma int_of_comma c z :
  truthy c && comma_digits c = true -> int_of c = Ok z ->
  z = dec_value (strip (str_of c)) /\ ~ In comma (str_of c).
Proof.
  unfold int_of. intros G H. apply andb_true_iff in G as [_ G].
  destruct (py_int (str_of c)) as [z'|] eqn:Z; [|discriminate].
  injection H as ->.
  destruct (py_int_guarded (str_of c) G Z) as [D ->]. split; auto.
  apply isdigit_all in D as [D _].
  destruct (strip_split is_space (str_of c)) as (a & b & E & Fa & Fb).
  fold (strip (str_of c)) in E. rewrite E. intros I.
  rewrite forallb_forall in Fa, Fb, D.
  apply in_app_or in I as [I|I]; [apply Fa in I; discriminate|].
  apply in_app_or in I as [I|I]; [apply D in I|apply Fb in I]; discriminate.
Qed.

Lemma int_field_comma r i v :
  int_field comma_digits None r i = Ok v -> i < List.length r ->
  v = int_entry comma_digits (nth i r None)
  /\ (truthy (nth i r None) && comma_digits (nth i r None) = true ->
      ~ In comma (str_of (nth i r None))).
Proof.
  unfold int_field, get, int_entry. intros H L.
  rewrite (@cell_at r i L) in H. simpl in H.
  set (c := nth i r None) in *.
  destruct (truthy c && comma_digits c) eqn:G;
    [|inversion H; split; [reflexivity | discriminate]].
  destruct (int_of c) as [z|] eqn:Z; simpl in H; [|discriminate].
  destruct (int_of_comma c G Z) as [-> N]. inversion H. auto.
Qed.

Lemma votes_field_comma r i z :
  votes_field r i = Ok z -> i < List.length r ->
  z = or_zero (int_entry comma_digits (nth i r None))
  /\ (truthy (nth i r None) && comma_digits (nth i r None) = true ->
      ~ In comma (str_of (nth i r None))).
Proof.
  unfold votes_field, get, int_entry. intros H L.
  rewrite (@cell_at r i L) in H. simpl in H.
  set (c := nth i r None) in *.
  destruct (truthy c && comma_digits c) eqn:G;
    [|inversion H; split; [reflexivity | discriminate]].
  destruct (int_of_comma c G H) as [-> N]. auto.
Qed.

Lemma text_field_trimmed r i x : text_field r i = Ok x -> strip x = x.
Proof.
  unfold text_field, get.
  destruct (nth_error r i) as [c|]; simpl; [|discriminate].
  intros [= <-]. destruct (truthy c); [|reflexivity].
  apply ends_clean_strip, strip_ends_clean.
Qed.

Lemma text_field_nl_trimmed r i x :
  text_field_nl r i = Ok x -> strip x = x /\ ~ In newline x.
Proof.
  unfold text_field_nl, get.
  destruct (nth_error r i) as [c|]; simpl; [|discriminate].
  intros [= <-]. destruct (truthy c); [|split; [reflexivity | easy]].
  split; [|apply replace_newline_gone].
  apply ends_clean_strip, replace_newline_clean, strip_ends_clean.
Qed.

End RowEntries.

(** X1.  A row of fewer than 14 cells is rejected whatever its cells
    hold: the length test lets 10 pass, but cells 10 to 13 are read
    without a test. *)
Theorem short_rows_are_rejected (r : row) :
  List.length r < 14 -> parse_table_row r = None.
Proof.
  intros L. destruct (parse_table_row r) as [c|] eqn:P; auto.
  apply parse_some_length in P. lia.
Qed.

Lemma short_rows_witness :
  parse_table_row (firstn 13 Samples.data_row) = None.
Proof.
  apply (short_rows_are_rejected (firstn 13 Samples.data_row)).
  simpl. lia.
Defined.

(** X2.  In an accepted row the serial number and the age are the
    base-ten values of their trimmed cells when the cell is not empty
    and, trimmed, is all digits, and absent otherwise; neither is ever
    negative. *)
Theorem integer_entries_of_accepted_rows (r : row) (cand : candidate) :
  parse_table_row r = Some cand ->
  serial_number cand = int_entry plain_digits (nth 0 r None)
  /\ age cand = int_entry plain_digits (nth 3 r None)
  /\ (forall n, serial_number cand = Some n -> (0 <= n)%Z)
  /\ (forall n, age cand = Some n -> (0 <= n)%Z).
Proof.
  intros P. pose proof (parse_some_length r P) as L.
  apply parse_some in P as (_ & _ & P). apply candidate_of_row_ok in P.
  destruct P as (S & _ & _ & A & _).
  apply int_field_plain in S; [|lia]. apply int_field_plain in A; [|lia].
  rewrite S, A. repeat split; auto; intros n; apply int_entry_nonneg.
Qed.

Lemma integer_entries_witness :
  serial_number Samples.data_candidate
  = int_entry plain_digits (nth 0 Samples.data_row None).
Proof.
  apply (integer_entries_of_accepted_rows Samples.data_row).
  vm_compute. reflexivity.
Defined.

(** X3.  In an accepted row the two vote totals are the base-ten
    values of their trimmed cells when the cell passes its test, and
    absent otherwise; the three votes secured are such a value or 0;
    none is negative; and a cell of columns 7 to 11 that passed its test
    holds no comma. *)
Theorem vote_counts_of_accepted_rows (r : row) (cand : candidate) :
  parse_table_row r = Some cand ->
  total_votes_polled cand = int_entry comma_digits (nth 7 r None)
  /\ valid_votes cand = int_entry comma_digits (nth 8 r None)
  /\ general (votes_secured cand)
     = or_zero (int_entry comma_digits (nth 9 r None))
  /\ postal (votes_secured cand)
     = or_zero (int_entry comma_digits (nth 10 r None))
  /\ total (votes_secured cand)
     = or_zero (int_entry comma_digits (nth 11 r None))
  /\ (0 <= general (votes_secured cand))%Z
  /\ (0 <= postal (votes_secured cand))%Z
  /\ (0 <= total (votes_secured cand))%Z
  /\ (forall i, 7 <= i <= 11 ->
        truthy (nth i r None) && comma_digits (nth i r None) = true ->
        ~ In comma (str_of (nth i r None))).
Proof.
  intros P. pose proof (parse_some_length r P) as L.
  apply parse_some in P as (_ & _ & P). apply candidate_of_row_ok in P.
  destruct P as (_&_&_&_&_&_&_& T & V & G & Po & To & _).
  apply int_field_comma in T as [T T']; [|lia].
  apply int_field_comma in V as [V V']; [|lia].
  apply votes_field_comma in G as [G G']; [|lia].
  apply votes_field_comma in Po as [Po Po']; [|lia].
  apply votes_field_comma in To as [To To']; [|lia].
  assert (NN : forall c, (0 <= or_zero (int_entry comma_digits c))%Z).
  { intros c. destruct (int_entry comma_digits c) eqn:E; simpl; [|lia].
    now apply int_entry_nonneg in E. }
  rewrite T, V, G, Po, To. repeat split; auto.
  intros i I.
  assert (C : i = 7 \/ i = 8 \/ i = 9 \/ i = 10 \/ i = 11) by lia.
  destruct C as [->|[->|[->|[->| ->]]]]; assumption.
Qed.

Lemma vote_counts_witness :
  total_votes_polled Samples.data_candidate
  = int_entry comma_digits (nth 7 Samples.data_row None).
Proof.
  apply (vote_counts_of_accepted_rows Samples.data_row).
  vm_compute. reflexivity.
Defined.

(** X4.  The five text entries of an accepted row have no white space
    at either end, and the candidate's name and the symbol hold no
    line feed. *)
Theorem text_entries_are_trimmed (r : row) (cand : candidate) :
  parse_table_row r = Some cand ->
  strip (candidate_name cand) = candidate_name cand
  /\ strip (gender cand) = gender cand
  /\ strip (category cand) = category cand
  /\ strip (party cand) = party cand
  /\ strip (symbol cand) = symbol cand
  /\ ~ In newline (candidate_name cand)
  /\ ~ In newline (symbol cand).
Proof.
  intros P. apply parse_some in P as (_ & _ & P).
  apply candidate_of_row_ok in P.
  destruct P as (_ & N & G & _ & C & Pa & S & _).
  apply text_field_nl_trimmed in N as [N N'].
  apply text_field_nl_trimmed in S as [S S'].
  apply text_field_trimmed in G. apply text_field_trimmed in C.
  apply text_field_trimmed in Pa. repeat split; assumption.
Qed.

Lemma text_entries_witness :
  strip (candidate_name Samples.data_candidate)
  = candidate_name Samples.data_candidate.
Proof.
  apply (text_entries_are_trimmed Samples.data_row).
  vm_compute. reflexivity.
Defined.

(** ** More on the page loop *)

Section LoopMore.

Lemma page_step_unreadable st p : readable p = false -> page_step st p = st.
Proof.
  unfold page_step, readable. now destruct (extract_text p) as [[|c t]|].
Qed.

Lemma loop_filter_readable pages : forall st,
  fold_left page_step (filter readable pages) st
  = fold_left page_step pages st.
Proof.
  induction pages as [|p ps IH]; intros st; simpl; auto.
  destruct (readable p) eqn:R; simpl; rewrite IH; auto.
  now rewrite page_step_unreadable.
Qed.

Lemma page_step_idle p :
  page_header p = None -> page_step ([], None) p = ([], None).
Proof. intros H. rewrite page_step_cases, H. reflexivity. Qed.

Lemma loop_idle pages :
  (forall p, In p pages -> page_header p = None) ->
  fold_left page_step pages ([], None) = ([], None).
Proof.
  induction pages as [|p ps IH]; simpl; intros H; auto.
  rewrite page_step_idle by (apply H; now left).
  apply IH. intros q I. apply H. now right.
Qed.

Lemma flush_loop pages res cur :
  flush (fold_left page_step pages (res, cur))
  = res ++ flush (fold_left page_step pages ([], cur)).
Proof. now rewrite !loop_segments. Qed.

(** Rows whose serial numbers are already held change nothing. *)
Lemma fold_add_row_held rows : forall cur,
  (forall r cand, In r rows -> admissible r = Some cand ->
     existing (candidates cur) (serial_number cand) <> None) ->
  fold_left add_row rows cur = cur.
Proof.
  induction rows as [|r rows IH]; intros cur H; simpl; auto.
  destruct (add_row_cases cur r) as [[-> _]|(cand & A & X & _)].
  - apply IH. intros r' c' I. apply H. now right.
  - destruct (H r cand (or_introl eq_refl) A X).
Qed.

Lemma existing_held cands kept n :
  In kept cands -> serial_number kept = n -> existing cands n <> None.
Proof.
  intros I E X. rewrite existing_none in X. now apply (X kept I).
Qed.

(** Feeding the same rows a second time changes nothing. *)
Lemma fold_add_row_twice rows cur :
  fold_left add_row rows (fold_left add_row rows cur)
  = fold_left add_row rows cur.
Proof.
  apply fold_add_row_held. intros r cand I A.
  destruct (fold_add_row_covers rows cur r I A) as (k & Ik & Ek).
  now apply (existing_held _ k).
Qed.

Lemma existing_seen cands n :
  existsb (serial_eqb n) (map serial_number cands)
  = negb (is_none (existing cands n)).
Proof.
  unfold existing. induction cands as [|c cands IH]; simpl; auto.
  assert (E : serial_eqb n (serial_number c)
              = serial_eqb (serial_number c) n).
  { destruct n, (serial_number c); simpl; auto. apply Z.eqb_sym. }
  rewrite E. destruct (serial_eqb (serial_number c) n); simpl; auto.
Qed.

Lemma add_row_admissible cur r :
  add_row cur r
  = match admissible r with
    | Some cand =>
        if existsb (serial_eqb (serial_number cand))
             (map serial_number (candidates cur))
        then cur else append_candidate cur cand
    | None => cur
    end.
Proof.
  unfold add_row, admissible.
  destruct (parse_table_row r) as [cand|]; auto.
  destruct (serial_number cand) eqn:S; auto.
  rewrite S, existing_seen.
  now destruct (existing (candidates cur) (Some z)).
Qed.

(** The loop over rows against [keep_first]. *)
Lemma fold_add_row_keep_first rows : forall cur,
  candidates (fold_left add_row rows cur)
  = candidates cur
    ++ keep_first (map serial_number (candidates cur)) (admitted_stream rows).
Proof.
  unfold admitted_stream.
  induction rows as [|r rows IH]; intros cur; simpl.
  - now rewrite app_nil_r.
  - rewrite IH, add_row_admissible.
    destruct (admissible r) as [cand|]; simpl; auto.
    destruct (existsb _ _); simpl; auto.
    rewrite map_app, <- app_assoc. reflexivity.
Qed.

Lemma keep_first_length l : forall seen,
  List.length (keep_first seen l) <= List.length l.
Proof.
  induction l as [|c l IH]; intros seen; simpl; auto.
  destruct (existsb _ seen); simpl.
  - specialize (IH seen). lia.
  - specialize (IH (seen ++ [serial_number c])). lia.
Qed.

Lemma admitted_stream_length rows :
  List.length (admitted_stream rows) <= List.length rows.
Proof.
  unfold admitted_stream. induction rows as [|r rows IH]; simpl; auto.
  rewrite length_app. destruct (admissible r); simpl; lia.
Qed.

Lemma build_length seg :
  List.length (candidates (build seg)) <= List.length (snd seg).
Proof.
  unfold build. rewrite fold_add_row_keep_first. simpl.
  pose proof (keep_first_length (admitted_stream (snd seg)) []).
  pose proof (admitted_stream_length (snd seg)). lia.
Qed.

Lemma segments_rows pages :
  List.length (fst (segments pages))
  + list_sum (map (fun seg => List.length (snd seg)) (snd (segments pages)))
  = List.length (flat_map page_rows pages).
Proof.
  induction pages as [|p ps IH]; simpl; auto.
  destruct (segments ps) as [pre segs]. simpl in IH.
  rewrite length_app, <- IH.
  destruct (page_header p); simpl; rewrite ?length_app; lia.
Qed.

Lemma list_sum_le A (f g : A -> nat) l :
  (forall x, f x <= g x) -> list_sum (map f l) <= list_sum (map g l).
Proof.
  intros H. induction l as [|x l IH]; simpl; auto.
  specialize (H x). lia.
Qed.

End LoopMore.

(** X5.  Pages without text are not looked at: a document gives the
    same result as the document with these pages taken out, whatever
    tables they hold. *)
Theorem pages_without_text_are_ignored (pages : list page) :
  extract_pdf_to_json (filter readable pages) = extract_pdf_to_json pages.
Proof.
  unfold extract_pdf_to_json. now rewrite loop_filter_readable.
Qed.

(** X6.  Nothing is kept of the pages in front of the first header
    match: a document whose first pages have no header match gives the
    result of the pages after them, and a document without any header
    match gives no constituency at all. *)
Theorem pages_before_first_header_are_dropped (before after : list page) :
  (forall p, In p before -> page_header p = None) ->
  extract_pdf_to_json (before ++ after) = extract_pdf_to_json after
  /\ constituencies (extract_pdf_to_json before) = [].
Proof.
  intros H. unfold extract_pdf_to_json.
  rewrite fold_left_app, (loop_idle before H). auto.
Qed.

Lemma pages_before_first_header_witness :
  extract_pdf_to_json
    ([MoreSamples.continuation; MoreSamples.scan_page] ++ [MoreSamples.page1])
  = extract_pdf_to_json [MoreSamples.page1].
Proof.
  apply (pages_before_first_header_are_dropped
           [MoreSamples.continuation; MoreSamples.scan_page]
           [MoreSamples.page1]).
  intros p [<-|[<-|[]]]; vm_compute; reflexivity.
Defined.

(** X7.  A document cut in front of a header page can be processed in
    two parts: its constituencies are those of the first part followed
    by those of the second. *)
Theorem documents_split_at_header_pages
    (part1 : list page) (p : page) (part2 : list page) (h : header) :
  page_header p = Some h ->
  constituencies (extract_pdf_to_json (part1 ++ p :: part2))
  = constituencies (extract_pdf_to_json part1)
    ++ constituencies (extract_pdf_to_json (p :: part2)).
Proof.
  intros H. unfold extract_pdf_to_json. simpl.
  rewrite fold_left_app. simpl.
  destruct (fold_left page_step part1 ([], None)) as [res cur].
  rewrite !page_step_cases, H. simpl.
  rewrite flush_loop. unfold flush at 2 3. simpl.
  destruct cur; simpl; now rewrite ?app_nil_r.
Qed.

Lemma documents_split_witness :
  constituencies
    (extract_pdf_to_json
       ([MoreSamples.page1; MoreSamples.continuation]
        ++ MoreSamples.page2 :: [MoreSamples.continuation]))
  = constituencies
      (extract_pdf_to_json [MoreSamples.page1; MoreSamples.continuation])
    ++ constituencies
         (extract_pdf_to_json
            (MoreSamples.page2 :: [MoreSamples.continuation])).
Proof.
  apply (@documents_split_at_header_pages
           [MoreSamples.page1; MoreSamples.continuation] MoreSamples.page2
           [MoreSamples.continuation] Samples.header2).
  vm_compute. reflexivity.
Defined.

(** X8.  A page without a header match that comes twice in a row
    counts once: the rows of the second copy carry serial numbers that
    are already held. *)
Theorem repeated_continuation_page_changes_nothing
    (before : list page) (p : page) (after : list page) :
  page_header p = None ->
  extract_pdf_to_json (before ++ p :: p :: after)
  = extract_pdf_to_json (before ++ p :: after).
Proof.
  intros H. unfold extract_pdf_to_json. f_equal. f_equal.
  rewrite !fold_left_app. simpl. f_equal.
  destruct (fold_left page_step before ([], None)) as [res cur].
  rewrite !page_step_cases, H. rewrite page_step_cases, H.
  destruct cur as [cur|]; simpl; auto.
  now rewrite fold_add_row_twice.
Qed.

Lemma repeated_continuation_witness :
  extract_pdf_to_json
    ([MoreSamples.page1]
     ++ MoreSamples.continuation :: MoreSamples.continuation :: [])
  = extract_pdf_to_json ([MoreSamples.page1] ++ MoreSamples.continuation :: []).
Proof.
  apply (repeated_continuation_page_changes_nothing
           [MoreSamples.page1] MoreSamples.continuation []).
  vm_compute. reflexivity.
Defined.

(** X9.  The candidates of a record stand in the order of their rows:
    they are, of the rows of the segment that parse with a serial
    number, the first one for each serial number, in row order. *)
Theorem candidates_in_row_order (pages : list page) :
  map candidates (constituencies (extract_pdf_to_json pages))
  = map (fun seg => keep_first [] (admitted_stream (snd seg)))
      (snd (segments pages)).
Proof.
  rewrite output_segments, map_map. apply map_ext.
  intros seg. unfold build. now rewrite fold_add_row_keep_first.
Qed.

(** X10.  The two numbers of the console summary: the constituencies
    counted are the header matches of the readable pages, and the
    candidates counted are no more than the rows of the readable pages
    past the first two of each table. *)
Theorem summary_counts (pages : list page) :
  count_constituencies (extract_pdf_to_json pages)
  = List.length (headers pages)
  /\ total_candidates (extract_pdf_to_json pages)
     <= List.length (flat_map page_rows pages).
Proof.
  unfold count_constituencies, total_candidates. split.
  - rewrite <- (output_headers pages). now rewrite length_map.
  - rewrite output_segments, map_map.
    pose proof (segments_rows pages) as R.
    pose proof (list_sum_le
                  (fun seg => List.length (candidates (build seg)))
                  (fun seg => List.length (snd seg))
                  (snd (segments pages)) build_length) as S.
    lia.
Qed.

(** X11.  In every record of the output the name has no white space at
    either end and holds no line feed, and the number of electors is
    not negative. *)
Theorem constituency_names_are_trimmed (pages : list page) :
  forall c,
    In c (constituencies (extract_pdf_to_json pages)) ->
    strip (constituency_name c) = constituency_name c
    /\ ~ In newline (constituency_name c)
    /\ (0 <= total_electors c)%Z.
Proof.
  intros c I.
  assert (J : In (header_of c) (headers pages))
    by (rewrite <- output_headers; now apply in_map).
  apply headers_page_header in J as (p & _ & H).
  unfold page_header in H.
  destruct (extract_text p) as [text|]; [|discriminate].
  destruct (readable p); [|discriminate].
  apply extract_some in H as (n & d1 & name & d2 & Sh & E & _).
  injection E as _ -> ->.
  split; [|split].
  - apply ends_clean_strip, strip_ends_clean.
  - intros M. apply strip_incl in M.
    destruct Sh as (w1&w2&w3&w4&w5&w6&w7&rest&_&_&_&_&_&_&_&_&_&_&A&_).
    unfold all_of in A. rewrite forallb_forall in A.
    apply A in M. discriminate.
  - apply dec_value_nonneg.
Qed.

Lemma constituency_names_witness :
  strip (lit "Araku") = lit "Araku".
Proof.
  refine (proj1 (@constituency_names_are_trimmed [MoreSamples.page1]
                   (mk_constituency 1 (lit "Araku") 1557153
                      [Samples.data_candidate]) _)).
  vm_compute. left. reflexivity.
Defined.

(** ** The inspector *)

Section InspectorFacts.
Import Inspector.

Lemma enumerate_in A (l : list A) : forall i j x,
  In (j, x) (enumerate i l) -> In x l.
Proof.
  induction l as [|y l IH]; simpl; intros i j x H; auto.
  destruct H as [[= _ ->]|H]; eauto.
Qed.

Lemma enumerate_length A (l : list A) i :
  List.length (enumerate i l) = List.length l.
Proof. revert i. induction l; simpl; auto. Qed.

Lemma enumerate_map A B (f : A -> B) (l : list A) : forall i,
  enumerate i (map f l) = map (fun ix => (fst ix, f (snd ix))) (enumerate i l).
Proof. induction l as [|x l IH]; simpl; intros i; auto. now rewrite IH. Qed.

Lemma table_preview_no_marker jt :
  filter is_page_marker (table_preview jt) = [].
Proof.
  unfold table_preview. cbn [filter is_page_marker].
  destruct (negb _ && _); auto. rewrite filter_app.
  assert (R : forall rows, filter is_page_marker (map RowLine rows) = []).
  { intros rows. induction rows as [|x rows IH]; [reflexivity | exact IH]. }
  rewrite R, app_nil_r.
  destruct (0 <? _); auto. now destruct (nth_error (snd jt) 0).
Qed.

Lemma tables_preview_no_marker jts :
  filter is_page_marker (flat_map table_preview jts) = [].
Proof.
  induction jts as [|jt jts IH]; cbn [flat_map]; auto.
  now rewrite filter_app, table_preview_no_marker, IH.
Qed.

Lemma page_preview_marker ip :
  filter is_page_marker (page_preview ip) = [PageMarker (fst ip + 1)].
Proof.
  unfold page_preview, text_preview. cbn [filter is_page_marker]. f_equal.
  rewrite filter_app.
  destruct (truthy _); cbn [filter is_page_marker app];
    (destruct (is_empty _); cbn [filter is_page_marker]; [reflexivity|]);
    apply tables_preview_no_marker.
Qed.

Lemma pages_preview_markers l : forall i,
  filter is_page_marker (flat_map page_preview (enumerate i l))
  = map PageMarker (seq (i + 1) (List.length l)).
Proof.
  induction l as [|p l IH]; intros i; cbn [enumerate flat_map]; auto.
  rewrite filter_app, page_preview_marker, IH. cbn [List.length seq map fst app].
  now replace (S i + 1) with (S (i + 1)) by lia.
Qed.

Lemma table_preview_length jt : List.length (table_preview jt) <= 7.
Proof.
  unfold table_preview. cbn [List.length].
  destruct (negb _ && _); cbn [List.length]; [|lia].
  rewrite length_app, length_map.
  pose proof (firstn_le_length 5 (skipn 1 (snd jt))).
  destruct (0 <? _); cbn [List.length]; [|lia].
  destruct (nth_error (snd jt) 0); cbn [List.length]; lia.
Qed.

Lemma flat_map_length_le A B (f : A -> list B) k l :
  (forall x, List.length (f x) <= k) ->
  List.length (flat_map f l) <= k * List.length l.
Proof.
  intros H. induction l as [|x l IH]; simpl; [lia|].
  rewrite length_app. specialize (H x). lia.
Qed.

Lemma page_preview_length ip : List.length (page_preview ip) <= 17.
Proof.
  unfold page_preview, text_preview. cbn [List.length]. rewrite length_app.
  assert (T : List.length
                (flat_map table_preview
                   (enumerate 0 (firstn 2 (extract_tables (snd ip)))))
              <= 14).
  { pose proof (@flat_map_length_le _ _ table_preview 7
                  (enumerate 0 (firstn 2 (extract_tables (snd ip))))
                  table_preview_length) as H.
    rewrite enumerate_length in H.
    pose proof (firstn_le_length 2 (extract_tables (snd ip))). lia. }
  destruct (truthy _); destruct (is_empty _); cbn [List.length]; lia.
Qed.

Lemma table_preview_rows jt r :
  In (Headers r) (table_preview jt) \/ In (RowLine r) (table_preview jt) ->
  In r (firstn 6 (snd jt)).
Proof.
  unfold table_preview. destruct jt as [j t]. simpl.
  destruct t as [|h t]; simpl.
  - intros [[H|[]]|[H|[]]]; discriminate.
  - intros [[H|[H|H]]|[H|[H|H]]]; try discriminate.
    + injection H as ->. now left.
    + apply in_map_iff in H as (x & E & _). discriminate.
    + right. apply in_map_iff in H as (x & [= ->] & I). exact I.
Qed.

Lemma table_preview_no_text jt s : ~ In (TextDump s) (table_preview jt).
Proof.
  unfold table_preview. intros [H|H]; [discriminate|].
  destruct (negb _ && _); [|contradiction].
  apply in_app_or in H as [H|H].
  - destruct (0 <? _); [|contradiction].
    destruct (nth_error (snd jt) 0); [|contradiction].
    destruct H as [H|[]]. discriminate.
  - apply in_map_iff in H as (x & E & _). discriminate.
Qed.

Lemma text_preview_in l o :
  In l (text_preview o) ->
  exists text, o = Some text /\ text <> [] /\ l = TextDump (firstn 2000 text).
Proof.
  unfold text_preview. destruct o as [[|c t]|]; cbn [truthy str_of];
    try contradiction.
  intros [<-|[]]. exists (c :: t). repeat split. discriminate.
Qed.

End InspectorFacts.

(** X12.  The inspector looks at the first five pages only, and prints
    one page marker for each of them, numbered from 1 in page order. *)
Theorem inspector_page_markers (pages : list page) :
  Inspector.extract_with_pdfplumber pages
  = Inspector.extract_with_pdfplumber (firstn 5 pages)
  /\ filter Inspector.is_page_marker (Inspector.extract_with_pdfplumber pages)
     = map Inspector.PageMarker (seq 1 (Nat.min 5 (List.length pages))).
Proof.
  unfold Inspector.extract_with_pdfplumber. split.
  - now rewrite firstn_firstn.
  - rewrite pages_preview_markers. now rewrite length_firstn.
Qed.

(** X13.  The inspector prints nothing from outside its window: a text
    printed is the first 2000 characters at most of the non-empty text
    of one of the first five pages, and a row printed is one of the
    first six rows of one of the first two tables of such a page. *)
Theorem inspector_prints_inside_window (pages : list page) :
  forall l,
    In l (Inspector.extract_with_pdfplumber pages) ->
    match l with
    | Inspector.TextDump s =>
        exists p text,
          In p (firstn 5 pages) /\ extract_text p = Some text
          /\ text <> [] /\ s = firstn 2000 text /\ List.length s <= 2000
    | Inspector.Headers r | Inspector.RowLine r =>
        exists p t,
          In p (firstn 5 pages) /\ In t (firstn 2 (extract_tables p))
          /\ In r (firstn 6 t)
    | _ => True
    end.
Proof.
  intros l I. unfold Inspector.extract_with_pdfplumber in I.
  apply in_flat_map in I as ([i p] & Ip & I).
  apply enumerate_in in Ip.
  unfold Inspector.page_preview in I. cbn [fst snd] in I.
  assert (Rows : forall r,
             In (Inspector.Headers r)
                (flat_map Inspector.table_preview
                   (Inspector.enumerate 0 (firstn 2 (extract_tables p))))
             \/ In (Inspector.RowLine r)
                  (flat_map Inspector.table_preview
                     (Inspector.enumerate 0 (firstn 2 (extract_tables p)))) ->
             exists p t,
               In p (firstn 5 pages) /\ In t (firstn 2 (extract_tables p))
               /\ In r (firstn 6 t)).
  { intros r H. exists p.
    assert (E : exists jt,
               In jt (Inspector.enumerate 0 (firstn 2 (extract_tables p)))
               /\ (In (Inspector.Headers r) (Inspector.table_preview jt)
                   \/ In (Inspector.RowLine r) (Inspector.table_preview jt))).
    { destruct H as [H1|H1]; apply in_flat_map in H1 as (jt & J & K); eauto. }
    destruct E as ([j t] & J & K). exists t.
    apply enumerate_in in J. apply table_preview_rows in K. auto. }
  destruct I as [<-|I]; [exact Logic.I|].
  apply in_app_or in I as [I|I].
  - apply text_preview_in in I as (text & E & N & ->).
    exists p, text. repeat split; auto. apply firstn_le_length.
  - destruct (is_empty (extract_tables p)); [contradiction|].
    destruct I as [<-|I]; [exact Logic.I|].
    destruct l; auto; try (apply Rows; auto).
    apply in_flat_map in I as (jt & _ & I).
    now apply table_preview_no_text in I.
Qed.

Lemma inspector_window_witness :
  exists p t,
    In p (firstn 5 [MoreSamples.page1])
    /\ In t (firstn 2 (extract_tables p))
    /\ In Samples.data_row (firstn 6 t).
Proof.
  apply (inspector_prints_inside_window [MoreSamples.page1]
           (Inspector.RowLine Samples.data_row)).
  vm_compute. do 6 right. left. reflexivity.
Defined.

(** X14.  The inspector calls [print] at most 17 times for a page,
    hence at most 85 times whatever the document. *)
Theorem inspector_output_is_bounded (pages : list page) :
  List.length (Inspector.extract_with_pdfplumber pages)
  <= 17 * Nat.min 5 (List.length pages)
  /\ List.length (Inspector.extract_with_pdfplumber pages) <= 85.
Proof.
  unfold Inspector.extract_with_pdfplumber.
  pose proof (@flat_map_length_le _ _ Inspector.page_preview 17
                (Inspector.enumerate 0 (firstn 5 pages))
                page_preview_length) as H.
  rewrite enumerate_length, length_firstn in H. lia.
Qed.

(** X15.  On a document whose first five pages have no tables the two
    strategies print the same lines, given the same page texts. *)
Theorem inspector_strategies_agree_without_tables (pages : list page) :
  (forall p, In p (firstn 5 pages) -> extract_tables p = []) ->
  Inspector.extract_with_pdfplumber pages
  = Inspector.extract_with_pypdf2 (map extract_text pages).
Proof.
  intros H.
  unfold Inspector.extract_with_pdfplumber, Inspector.extract_with_pypdf2.
  rewrite firstn_map, enumerate_map.
  assert (G : forall i l,
             (forall p, In p l -> extract_tables p = []) ->
             flat_map Inspector.page_preview (Inspector.enumerate i l)
             = flat_map
                 (fun ip => Inspector.PageMarker (fst ip + 1)
                            :: Inspector.text_preview (snd ip))
                 (map (fun ix => (fst ix, extract_text (snd ix)))
                    (Inspector.enumerate i l))).
  { intros i l. revert i. induction l as [|p l IH]; intros i T; auto.
    cbn [Inspector.enumerate flat_map map fst snd].
    rewrite IH by (intros q I; apply T; now right).
    f_equal. unfold Inspector.page_preview. cbn [fst snd].
    rewrite (T p) by now left. cbn [is_empty]. now rewrite app_nil_r. }
  apply G. exact H.
Qed.

Lemma inspector_strategies_witness :
  Inspector.extract_with_pdfplumber [mk_page (Some Samples.text2) []]
  = Inspector.extract_with_pypdf2
      (map extract_text [mk_page (Some Samples.text2) []]).
Proof.
  apply (inspector_strategies_agree_without_tables
           [mk_page (Some Samples.text2) []]).
  intros p [<-|[]]. reflexivity.
Defined.

(** X16.  The entry point never reads the flag the imports left
    unbound; it uses pdfplumber whenever that library is found, PyPDF2
    only when pdfplumber is missing, and prints its two lines of advice
    and nothing else when both are missing. *)
Theorem inspector_entry_point (env : Inspector.imports)
    (pages : list page) (texts : list (option str)) :
  Inspector.main (Inspector.module_flags env) pages texts <> None
  /\ Inspector.main (Inspector.module_flags env) pages texts
     = Some
         (if Inspector.pdfplumber_found env
          then Inspector.Message (lit "Using pdfplumber...")
               :: Inspector.extract_with_pdfplumber pages
          else if Inspector.pypdf2_found env
          then Inspector.Message (lit "Using PyPDF2...")
               :: Inspector.extract_with_pypdf2 texts
          else [Inspector.Message
                  (lit "No PDF library available. Please install pdfplumber or PyPDF2");
                Inspector.Message
                  (lit "Try: pip install pdfplumber --break-system-packages")]).
Proof.
  destruct env as [[|] [|]]; split; try discriminate; reflexivity.
Qed.

(* ------------------------------------------------------------------ *)
(** * The header detector with its exception *)

(** ** Which match the backtracking matcher returns *)

Section BestMatch.

Variable R : Type.
Variable cls : ascii -> bool.
Variable k : str -> str -> option R.

Lemma all_of_cons c t :
  all_of cls (c :: t) <-> cls c = true /\ all_of cls t.
Proof. unfold all_of. simpl. apply andb_true_iff. Qed.

Lemma rev_cons_app (c : ascii) t acc : rev (c :: t) ++ acc = rev t ++ c :: acc.
Proof. simpl. now rewrite <- app_assoc. Qed.

Lemma preferred_cons (greedy : bool) c t' t :
  preferred greedy (c :: t') (c :: t) -> preferred greedy t' t.
Proof. unfold preferred. destruct greedy; simpl; lia. Qed.

Lemma preferred_irrefl (greedy : bool) t : ~ preferred greedy t t.
Proof. unfold preferred. destruct greedy; lia. Qed.

(** The result of [rep] on [c :: s] when it takes [c]. *)
Lemma rep_first_cons (greedy : bool) c s acc lo_in lo_out taken rest r :
  cls c = true -> s = taken ++ rest -> all_of cls taken ->
  lo_in <= List.length taken ->
  (forall n, lo_out <= S n -> lo_in <= n) ->
  lo_out <= S (List.length taken) ->
  k (rev taken ++ c :: acc) rest = Some r ->
  (forall t' r',
      t' ++ r' = s -> all_of cls t' -> lo_in <= List.length t' ->
      preferred greedy t' taken -> k (rev t' ++ c :: acc) r' = None) ->
  (lo_out <= 0 -> preferred greedy [] (c :: taken) ->
   k acc (c :: s) = None) ->
  exists taken0 rest0,
    c :: s = taken0 ++ rest0 /\ all_of cls taken0
    /\ lo_out <= List.length taken0
    /\ k (rev taken0 ++ acc) rest0 = Some r
    /\ forall t' r',
         t' ++ r' = c :: s -> all_of cls t' -> lo_out <= List.length t' ->
         preferred greedy t' taken0 -> k (rev t' ++ acc) r' = None.
Proof.
  intros C E A L Lo Lo' K F N. exists (c :: taken), rest.
  split; [simpl; congruence|].
  split; [now apply all_of_cons|].
  split; [exact Lo'|].
  split; [now rewrite rev_cons_app|].
  intros t' r' E' A' L' P. destruct t' as [|x t'].
  - simpl in E'. subst r'. apply N; auto.
  - simpl in E'. injection E' as -> E'. apply all_of_cons in A' as [_ A'].
    rewrite rev_cons_app.
    apply F; [exact E' | exact A' | apply Lo; exact L'
             | now apply preferred_cons in P].
Qed.

(** [rep] returns what its continuation returns on the first split, in
    its order of preference, that the continuation accepts. *)
Lemma rep_first (greedy : bool) s : forall lo acc r,
  rep cls greedy k lo acc s = Some r ->
  exists taken rest,
    s = taken ++ rest /\ all_of cls taken /\ lo <= List.length taken
    /\ k (rev taken ++ acc) rest = Some r
    /\ forall taken' rest',
         taken' ++ rest' = s -> all_of cls taken' ->
         lo <= List.length taken' -> preferred greedy taken' taken ->
         k (rev taken' ++ acc) rest' = None.
Proof.
  induction s as [|c s IH]; intros lo acc r H.
  - destruct lo; simpl in H; [|discriminate].
    exists [], []. split; [reflexivity|]. split; [reflexivity|].
    split; [simpl; lia|]. split; [exact H|].
    intros t' r' E _ _ P. apply app_eq_nil in E as [-> ->].
    now apply preferred_irrefl in P.
  - assert (Nil : k acc (c :: s) = Some r ->
              (forall t' r', t' ++ r' = s -> all_of cls t' -> cls c = true ->
                 preferred greedy (c :: t') [] ->
                 k (rev t' ++ c :: acc) r' = None) ->
              exists taken rest,
                c :: s = taken ++ rest /\ all_of cls taken
                /\ 0 <= List.length taken
                /\ k (rev taken ++ acc) rest = Some r
                /\ forall taken' rest',
                     taken' ++ rest' = c :: s -> all_of cls taken' ->
                     0 <= List.length taken' ->
                     preferred greedy taken' taken ->
                     k (rev taken' ++ acc) rest' = None).
    { intros K F. exists [], (c :: s).
      split; [reflexivity|]. split; [reflexivity|].
      split; [simpl; lia|]. split; [exact K|].
      intros t' r' E A _ P. destruct t' as [|x t'].
      - now apply preferred_irrefl in P.
      - simpl in E. injection E as -> E. apply all_of_cons in A as [C A].
        rewrite rev_cons_app. apply F; auto. }
    destruct lo as [|lo]; simpl in H; destruct (cls c) eqn:C;
      try discriminate.
    + destruct greedy.
      * destruct (rep cls true k 0 (c :: acc) s) as [r'|] eqn:E;
          simpl in H.
        -- injection H as ->.
           apply IH in E as (t & rest & E & A & L & K & F).
           apply (@rep_first_cons true c s acc 0 0 t rest r); auto; try lia.
           intros _ P. unfold preferred in P. simpl in P. lia.
        -- apply Nil; auto. intros t' r' E' A' _ _.
           destruct (k (rev t' ++ c :: acc) r') eqn:K; auto.
           exfalso. subst s.
           apply (@rep_complete R cls true k t' 0 (c :: acc) r'); auto;
             [lia | congruence].
      * destruct (k acc (c :: s)) as [r'|] eqn:E; simpl in H.
        -- injection H as ->. apply Nil; auto.
           intros t' r' _ _ _ P. unfold preferred in P. simpl in P. lia.
        -- apply IH in H as (t & rest & E' & A & L & K & F).
           apply (@rep_first_cons false c s acc 0 0 t rest r); auto; lia.
    + apply Nil; auto. intros t' r' _ _ C'. congruence.
    + apply IH in H as (t & rest & E & A & L & K & F).
      apply (@rep_first_cons greedy c s acc lo (S lo) t rest r); auto;
        try lia.
Qed.

End BestMatch.

Lemma best_matches p s g : best p s g -> matches p s g.
Proof.
  induction 1; [constructor | now constructor |].
  destruct capture; constructor; auto.
Qed.

(** The matcher returns a best match. *)
Lemma match_here_best p : forall s g,
  match_here p s = Some g -> best p s g.
Proof.
  induction p as [|a p IH]; intros s g H; simpl in H.
  - injection H as <-. constructor.
  - destruct a as [l|cls lo greedy capture]; simpl in H.
    + destruct (strip_prefix l s) as [s'|] eqn:E; [|discriminate].
      apply strip_prefix_sound in E as ->. constructor. auto.
    + apply rep_first in H as (t & rest & -> & A & L & K & F).
      rewrite app_nil_r, rev_involutive in K.
      assert (G : exists g0, match_here p rest = Some g0
                             /\ g = if capture then t :: g0 else g0).
      { destruct capture; [|eauto].
        apply option_map_some in K as (g0 & K & ->). eauto. }
      destruct G as (g0 & K' & ->).
      constructor; auto.
      intros t' s' E A' L' P g' M.
      specialize (F t' s' E A' L' P).
      apply match_here_complete in M.
      rewrite app_nil_r in F.
      destruct (match_here p s'); [|contradiction].
      destruct capture; discriminate.
Qed.

(** [search] returns a best match at the first offset that has a
    match. *)
Lemma search_best p s g :
  search p s = Some g ->
  exists n, best p (skipn n s) g
            /\ forall m g', m < n -> ~ matches p (skipn m s) g'.
Proof.
  revert g. induction s as [|c s IH]; intros g H; simpl in H.
  - destruct (match_here p []) eqn:E; [|discriminate].
    injection H as ->. exists 0. split; [now apply match_here_best | lia].
  - destruct (match_here p (c :: s)) eqn:E.
    + injection H as ->. exists 0. split; [now apply match_here_best | lia].
    + apply IH in H as (n & M & F). exists (S n). split; auto.
      intros [|m] g' L M'.
      * apply match_here_complete in M'. simpl in M'. congruence.
      * apply (F m g'); [lia | exact M'].
Qed.

(** ** The header sentence read in one way only *)

Section HeaderParts.

(** Two runs of a class in front of texts that do not start in the
    class: the runs are the same. *)
Lemma run_unique p w : forall w' x x',
  all_of p w -> all_of p w' -> stops p x -> stops p x' ->
  w ++ x = w' ++ x' -> w = w' /\ x = x'.
Proof.
  unfold all_of.
  induction w as [|c w IH]; intros [|c' w'] x x' A A' S S' E; simpl in *.
  - auto.
  - subst x. simpl in S. apply andb_true_iff in A' as [A' _]. congruence.
  - subst x'. simpl in S'. apply andb_true_iff in A as [A _]. congruence.
  - injection E as -> E.
    apply andb_true_iff in A as [_ A]. apply andb_true_iff in A' as [_ A'].
    destruct (IH w' x x' A A' S S' E) as [-> ->]. auto.
Qed.

Lemma same_length_app A (a : list A) : forall a' b b',
  a ++ b = a' ++ b' -> List.length a = List.length a' -> a = a' /\ b = b'.
Proof.
  induction a as [|x a IH]; intros [|x' a'] b b' E L; simpl in *;
    try discriminate; auto.
  injection E as -> E. injection L as L.
  destruct (IH a' b b' E L) as [-> ->]. auto.
Qed.

Lemma stops_digits_then p d x :
  all_of is_digit d -> d <> [] -> (forall c, is_digit c = true -> p c = false) ->
  stops p (d ++ x).
Proof.
  intros D N H. destruct d as [|c d]; [congruence|]. simpl.
  apply H. unfold all_of in D. simpl in D.
  now apply andb_true_iff in D as [D _].
Qed.

Lemma stops_spaces_then w (c : ascii) x :
  all_of is_space w -> is_digit c = false -> stops is_digit (w ++ c :: x).
Proof.
  intros W C. destruct w as [|s w]; simpl; auto.
  unfold all_of in W. simpl in W. apply andb_true_iff in W as [W _].
  destruct (is_digit s) eqn:D; auto.
  apply digit_not_space in D. congruence.
Qed.

Lemma header_parts_shape s d1 name d2 :
  header_shape s d1 name d2 <-> exists w3, header_parts s w3 d1 name d2.
Proof.
  unfold header_shape, header_parts. split.
  - intros (w1 & w2 & w3 & w4 & w5 & w6 & w7 & rest & H).
    exists w3, w1, w2, w4, w5, w6, w7, rest. tauto.
  - intros (w3 & w1 & w2 & w4 & w5 & w6 & w7 & rest & H).
    exists w1, w2, w3, w4, w5, w6, w7, rest. tauto.
Qed.

Ltac same_run p H :=
  apply (@run_unique p) in H as [<- H];
  [ | assumption | assumption
    | first [ reflexivity
            | apply stops_digits_then;
              [assumption | first [assumption | now apply nonempty_length]
               | apply digit_not_space]
            | apply stops_spaces_then; [assumption | reflexivity] ]
    | first [ reflexivity
            | apply stops_digits_then;
              [assumption | first [assumption | now apply nonempty_length]
               | apply digit_not_space]
            | apply stops_spaces_then; [assumption | reflexivity] ] ].

(** A second reading of a text as a header sentence agrees with the
    first up to the dot: what is left of both is the white space, the
    name and the rest. *)
Lemma header_front s w1 d1 w2 w3 name tail w3' d1' name' d2' :
  s = lit "Constituency:" ++ w1 ++ d1 ++ w2 ++ lit "." ++ w3 ++ name ++ tail ->
  all_of is_space w1 -> all_of is_digit d1 -> d1 <> [] ->
  all_of is_space w2 ->
  header_parts s w3' d1' name' d2' ->
  d1 = d1'
  /\ exists tail',
       w3 ++ name ++ tail = w3' ++ name' ++ tail'
       /\ all_of is_space w3' /\ all_of any_char name'
       /\ 1 <= List.length name'
       /\ matches header_tail tail' [d2'].
Proof.
  intros E W1 D1 N1 W2.
  intros (v1 & v2 & v4 & v5 & v6 & v7 & rest' & E' & V1 & V2 & V3 & V4 & V5
          & V6 & V7 & D1' & N1' & Nm' & Nn' & D2' & N2').
  rewrite E in E'. apply app_inv_head in E'.
  same_run is_space E'. same_run is_digit E'. same_run is_space E'.
  split; [reflexivity|]. apply app_inv_head in E'.
  exists (v4 ++ lit "(" ++ v5 ++ lit "Total Electors" ++ v6 ++ d2' ++ v7
            ++ lit ")" ++ rest').
  split; [exact E'|]. split; [exact V3|]. split; [exact Nm'|].
  split; [now apply nonempty_length|].
  unfold header_tail, ws.
  repeat first [ apply matches_lit | apply matches_rep
               | apply matches_cap | apply matches_nil ];
    try assumption; try lia; now apply nonempty_length.
Qed.


Ltac peel_best :=
  repeat match goal with
         | H : best (_ :: _) _ _ |- _ => inversion H; subst; clear H
         | H : best [] _ _ |- _ => inversion H; subst; clear H
         end.

(** A best match of the header pattern is the header sentence that
    gives the white space after the dot the most characters and then
    the name the fewest. *)
Lemma best_header s g :
  best header_pattern s g ->
  exists w3 d1 name d2,
    g = [d1; name; d2]
    /\ header_parts s w3 d1 name d2
    /\ forall w3' d1' name' d2',
         header_parts s w3' d1' name' d2' ->
         List.length w3' <= List.length w3
         /\ (List.length w3' = List.length w3 ->
             List.length name <= List.length name').
Proof.
  unfold header_pattern, ws. intros B.
  inversion B as [|l0 p0 s0 g0 B1|]; subst; clear B.
  inversion B1 as [| |c1 o1 r1 k1 p1 w1 s1 g1 W1 _ B2 _]; subst; clear B1.
  inversion B2 as [| |c2 o2 r2 k2 p2 d1 s2 g2 D1 N1 B3 _]; subst; clear B2.
  inversion B3 as [| |c3 o3 r3 k3 p3 w2 s3 g3 W2 _ B4 _]; subst; clear B3.
  inversion B4 as [|l4 p4 s4 g4 B5|]; subst; clear B4.
  inversion B5 as [| |c5 o5 r5 k5 p5 w3 s5 g5 W3 _ B6 F3]; subst; clear B5.
  inversion B6 as [| |c6 o6 r6 k6 p6 name s6 g6 Nm Nn B7 Fn]; subst; clear B6.
  assert (M : matches header_tail s6 g6) by (now apply best_matches).
  unfold header_tail, ws in M.
  repeat match goal with
         | H : matches (_ :: _) _ _ |- _ => inversion H; subst; clear H
         | H : matches [] _ _ |- _ => inversion H; subst; clear H
         end.
  clear B7.
  match goal with
  | |- exists w3 d1 name d2, [_; _; ?d] = _ /\ _ => exists w3, d1, name, d
  end.
  split; [reflexivity|]. split.
  - unfold header_parts. repeat eexists; try reflexivity; try assumption;
      now apply nonempty_length.
  - intros w3' d1' name' d2' HP.
    eapply header_front in HP as (_ & tail' & E & V3 & Nm' & Nn' & M');
      [|reflexivity|assumption|assumption|now apply nonempty_length
       |assumption].
    assert (L3 : List.length w3' <= List.length w3).
    { destruct (Nat.le_gt_cases (List.length w3') (List.length w3)) as [|G];
        auto.
      exfalso. apply (F3 w3' (name' ++ tail')) with (g' := [name'; d2']);
        auto; [lia|]. constructor; auto. }
    split; [exact L3|]. intros L.
    apply same_length_app in E as [<- E]; auto.
    destruct (Nat.le_gt_cases (List.length name) (List.length name'))
      as [|G]; auto.
    exfalso. apply (Fn name' tail') with (g' := [d2']); auto.
Qed.

End HeaderParts.

(** ** The detector, its result and its exception *)

Section DetectorFacts.

Lemma int_of_text_digits d :
  isdigit d = true ->
  int_of_text d = if List.length d <=? int_max_str_digits
                  then Ok (dec_value d) else Raise ValueError.
Proof.
  intros D. unfold int_of_text. rewrite (py_int_digits _ D).
  rewrite Nat.ltb_antisym. now destruct (_ <=? _).
Qed.

Lemma header_parts_digits s w3 d1 name d2 :
  header_parts s w3 d1 name d2 -> isdigit d1 = true /\ isdigit d2 = true.
Proof.
  intros H. apply (@shape_digits s d1 name d2).
  apply header_parts_shape. eauto.
Qed.




(** What the detector does, read off the search. *)
Lemma detector_cases text :
  (search header_pattern text = None
   /\ (forall n, ~ header_at text n)
   /\ extract_constituency_info_raising text = Ok None)
  \/ (exists n w3 d1 name d2,
        chosen text n w3 d1 name d2
        /\ extract_constituency_info_raising text
           = if (List.length d1 <=? int_max_str_digits)
                && (List.length d2 <=? int_max_str_digits)
             then Ok (Some (mk_header (dec_value d1) (strip name)
                              (dec_value d2)))
             else Raise ValueError).
Proof.
  unfold extract_constituency_info_raising.
  destruct (search header_pattern text) as [g|] eqn:S.
  - right. apply search_best in S as (n & B & F).
    apply best_header in B as (w3 & d1 & name & d2 & -> & HP & P).
    exists n, w3, d1, name, d2. split.
    + split; [exact HP|]. split; [|exact P].
      intros m L (a & b & c & Sh). apply (F m [a; b; c] L).
      apply header_pattern_shape. eauto.
    + destruct (header_parts_digits HP) as [D1 D2].
      unfold group. cbn [nth_error Nat.sub bind].
      rewrite (int_of_text_digits d1 D1), (int_of_text_digits d2 D2).
      destruct (_ <=? _); cbn [bind andb]; [|reflexivity].
      destruct (_ <=? _); reflexivity.
  - left. split; [reflexivity|]. split; [|reflexivity].
    intros n (d1 & name & d2 & Sh).
    assert (M : matches header_pattern (skipn n text) [d1; name; d2])
      by (apply header_pattern_shape; eauto).
    apply search_complete in M. congruence.
Qed.


(** Whenever the detector returns, the function the page loop is
    modelled with returns the same; and the detector only ever raises
    [ValueError]. *)
Lemma detector_returns text r :
  extract_constituency_info_raising text = Ok r ->
  extract_constituency_info text = r.
Proof.
  intros H. unfold extract_constituency_info.
  destruct (detector_cases text) as [(S & _ & E)|(n & w3 & d1 & name & d2
                                                 & C & E)].
  - rewrite S. congruence.
  - rewrite H in E. unfold extract_constituency_info_raising in H.
    destruct (search header_pattern text) as [g|] eqn:S.
    + apply search_best in S as (n0 & B & _).
      apply best_header in B as (v3 & e1 & nm & e2 & -> & HP & _).
      destruct (header_parts_digits HP) as [D1 D2].
      unfold group in H. cbn [nth_error Nat.sub bind] in H.
      unfold int_of_text in H.
      destruct (py_int e1); cbn [bind] in H; [|discriminate].
      destruct (py_int e2); cbn [bind] in H; [|discriminate].
      congruence.
    + congruence.
Qed.

Lemma detector_raises text e :
  extract_constituency_info_raising text = Raise e -> e = ValueError.
Proof.
  intros H.
  destruct (detector_cases text) as [(_ & _ & E)|(n & w3 & d1 & name & d2
                                                 & _ & E)];
    rewrite H in E; [discriminate|].
  destruct (_ && _); [discriminate | congruence].
Qed.

Lemma on_header_info_spec st text :
  on_header st text = on_header_info st (extract_constituency_info text).
Proof. reflexivity. Qed.

Lemma page_step_returns st p st' :
  page_step_raising st p = Ok st' -> st' = page_step st p.
Proof.
  unfold page_step_raising, page_step.
  destruct (extract_text p) as [[|c text]|]; try (now intros [= <-]).
  destruct (extract_constituency_info_raising (c :: text)) as [info|] eqn:E;
    cbn [bind]; [|discriminate].
  intros [= <-]. rewrite on_header_info_spec.
  now rewrite (detector_returns _ E).
Qed.

Lemma run_pages_returns pages : forall st st',
  run_pages pages st = Ok st' -> st' = fold_left page_step pages st.
Proof.
  induction pages as [|p ps IH]; intros st st' H; simpl in H.
  - now injection H as <-.
  - destruct (page_step_raising st p) as [st1|] eqn:E; cbn [bind] in H;
      [|discriminate].
    apply page_step_returns in E as ->. now apply IH.
Qed.

Lemma page_step_raises st p e :
  page_step_raising st p = Raise e <->
  exists text,
    extract_text p = Some text /\ readable p = true
    /\ extract_constituency_info_raising text = Raise e.
Proof.
  unfold page_step_raising, readable. split.
  - destruct (extract_text p) as [[|c text]|]; try discriminate.
    destruct (extract_constituency_info_raising (c :: text)) eqn:E;
      cbn [bind]; [discriminate|].
    intros [= <-]. eauto.
  - intros (text & -> & R & E). destruct text as [|c text]; [discriminate|].
    now rewrite E.
Qed.

Lemma run_pages_raises pages : forall st,
  (exists e, run_pages pages st = Raise e) <->
  exists p text,
    In p pages /\ extract_text p = Some text /\ readable p = true
    /\ exists e, extract_constituency_info_raising text = Raise e.
Proof.
  induction pages as [|p ps IH]; intros st; simpl.
  - split; [intros [e H]; discriminate | intros (p & t & [] & _)].
  - destruct (page_step_raising st p) as [st1|e1] eqn:E; cbn [bind].
    + rewrite IH. split.
      * intros (q & t & I & H). exists q, t. auto.
      * intros (q & t & [<-|I] & T & R & e & H); [|eauto 8].
        assert (X : page_step_raising st p = Raise e)
          by (apply page_step_raises; eauto).
        congruence.
    + split; [|eauto]. intros _.
      apply page_step_raises in E as (t & T & R & H).
      exists p, t. eauto 8.
Qed.

Lemma run_pages_value_error pages : forall st e,
  run_pages pages st = Raise e -> e = ValueError.
Proof.
  induction pages as [|p ps IH]; intros st e H; simpl in H; [discriminate|].
  destruct (page_step_raising st p) as [st1|e1] eqn:S; cbn [bind] in H.
  - eauto.
  - injection H as <-. apply page_step_raises in S as (t & _ & _ & D).
    now apply detector_raises in D.
Qed.

End DetectorFacts.



(** X17.  A run of the extraction that completes gives the result the
    page loop is modelled with; a run is cut short exactly when the
    text of a readable page holds a header sentence that the detector
    raises on, and then by [ValueError]. *)
Theorem completed_runs_give_the_result :
  (forall pages out,
      extract_pdf_to_json_raising pages = Ok out ->
      out = extract_pdf_to_json pages)
  /\ (forall pages,
        (exists e, extract_pdf_to_json_raising pages = Raise e) <->
        exists p text,
          In p pages /\ extract_text p = Some text /\ readable p = true
          /\ exists e, extract_constituency_info_raising text = Raise e)
  /\ (forall pages e,
        extract_pdf_to_json_raising pages = Raise e -> e = ValueError)
  /\ (forall text r,
        extract_constituency_info_raising text = Ok r ->
        extract_constituency_info text = r).
Proof.
  assert (Run : forall pages,
             (exists e, extract_pdf_to_json_raising pages = Raise e) <->
             exists e, run_pages pages ([], None) = Raise e).
  { intros pages. unfold extract_pdf_to_json_raising.
    destruct (run_pages pages ([], None)) as [st|e0]; cbn [bind]; split;
      intros [e1 H]; try discriminate; eauto. }
  split; [|split; [|split]].
  - intros pages out. unfold extract_pdf_to_json_raising, extract_pdf_to_json.
    destruct (run_pages pages ([], None)) as [st|] eqn:E; cbn [bind];
      [|discriminate].
    apply run_pages_returns in E as ->. now intros [= <-].
  - intros pages. rewrite Run. apply run_pages_raises.
  - intros pages e. unfold extract_pdf_to_json_raising.
    destruct (run_pages pages ([], None)) as [st|e0] eqn:E; cbn [bind];
      [discriminate|].
    intros [= <-]. exact (run_pages_value_error _ _ E).
  - exact detector_returns.
Qed.


Section DetectorTests.
Open Scope string_scope.
Example detector_probe :
  map (fun s => extract_constituency_info_raising (lit s))
    ["Constituency: 1 . A ( Total Electors 7) ( Total Electors 8)";
     "Constituency: 1 .  ( Total Electors 7) ( Total Electors 8)";
     "Constituency: 1 .  A  ( Total Electors 7)";
     "Constituency 1 . A ( Total Electors 7)"]
  = [Ok (Some (mk_header 1 (lit "A") 7));
     Ok (Some (mk_header 1 (lit "( Total Electors 7)") 8));
     Ok (Some (mk_header 1 (lit "A") 7));
     Ok None]%Z.
Proof. vm_compute. reflexivity. Qed.

Example digit_limit_probe :
  py_int (repeat "1"%char 4300) <> None
  /\ py_int (repeat "1"%char 4301) = None.
Proof.
  assert (D : forall n, isdigit (repeat "1"%char (S n)) = true).
  { intros n. apply isdigit_all. split; [|discriminate].
    apply forallb_forall. intros c I. apply repeat_spec in I. now subst c. }
  rewrite !py_int_digits by apply D. rewrite !repeat_length.
  split; [discriminate | reflexivity].
Qed.
End DetectorTests.
